(** * cli_query: the cached natural-language query pipeline

    A shallow embedding of [backend/cli_query.py]: the Redis / in-memory
    cache in front of the SQL generator ([query_with_cache]), the MySQL
    executor ([execute_sql]) and the table printer ([print_results]).

    Conventions of the embedding.
    - A Python [str] is a list of Unicode code points, so that [len] is
      [length] and slicing is [take]; literals of the source are written
      with [py], which decodes the UTF-8 bytes of a Rocq string literal.
    - The three collaborators (Redis, the SQL generator, MySQL) answer
      through an [Env] record: one record describes how each of them
      answers during one call.  A raised exception is [Raise msg], where
      [msg] is what the handler prints as [{e}].
    - Effects are threaded by a small state-and-log monad [M]: the state
      holds the module global [mock_cache] and the contents of the Redis
      server, the log is the sequence of calls to collaborators, of
      accesses to [mock_cache] and of printed lines, oldest first. *)

From Stdlib Require Import ZArith NArith List Ascii String DecimalString Lia.
From stdpp Require Import base option list countable gmap.
Import ListNotations.

Local Open Scope Z_scope.

(** ** Python strings *)

Module PyStr.

Abbreviation pystr := (list N).

(** UTF-8 decoding of the bytes of a literal: [pending] continuation
    bytes are still expected, [acc] holds the bits read so far. *)
Fixpoint utf8_decode (pending : nat) (acc : N) (bs : list N) : pystr :=
  match bs with
  | [] => []
  | b :: bs' =>
      match pending with
      | O =>
          if (b <? 128)%N then b :: utf8_decode 0 0%N bs'
          else if (b <? 224)%N then utf8_decode 1 (b - 192)%N bs'
          else if (b <? 240)%N then utf8_decode 2 (b - 224)%N bs'
          else utf8_decode 3 (b - 240)%N bs'
      | S k =>
          let acc' := (acc * 64 + (b - 128))%N in
          match k with
          | O => acc' :: utf8_decode 0 0%N bs'
          | S _ => utf8_decode k acc' bs'
          end
      end
  end.

Definition py (s : string) : pystr :=
  utf8_decode 0 0%N (map N_of_ascii (list_ascii_of_string s)).

(** [str(n)] for a Python [int]. *)
Definition str_of_int (z : Z) : pystr :=
  py (NilZero.string_of_int (Z.to_int z)).

(** [len(l)], of a string or of a list *)
Definition len {A} (l : list A) : Z := Z.of_nat (length l).

(** [s[:n]]: a negative bound counts from the end. *)
Definition slice_to (n : Z) (s : pystr) : pystr :=
  if 0 <=? n then take (Z.to_nat n) s
  else take (length s - Z.to_nat (- n))%nat s.

(** [c * n] for a one-character string [c]. *)
Definition repeat_char (c : N) (n : Z) : pystr := replicate (Z.to_nat n) c.

Definition space : N := 32%N.
Definition newline : N := 10%N.
Definition equals_sign : N := 61%N.
Definition hyphen : N := 45%N.

(** [max(l)] of a list of integers; [max([])] raises [ValueError], and
    the program only calls it on a list with one entry per fetched row
    of a non-empty result. *)
Definition py_max (l : list Z) : Z :=
  match l with
  | [] => 0
  | x :: l' => foldl Z.max x l'
  end.

(** [f"{s:<{w}}"]: pad on the right with spaces up to [w] characters. *)
Definition format_left (w : Z) (s : pystr) : pystr :=
  s ++ repeat_char space (w - len s).

(** [f"{s:^{w}}"]: centre; the extra space of an odd padding goes right. *)
Definition format_center (w : Z) (s : pystr) : pystr :=
  let pad := Z.max 0 (w - len s) in
  repeat_char space (pad / 2) ++ s ++ repeat_char space (pad - pad / 2).

(** Truthiness of a value that is [None] or a [str]. *)
Definition truthy (o : option pystr) : bool :=
  match o with
  | Some (_ :: _) => true
  | _ => false
  end.

End PyStr.
Import PyStr.
Arguments py s%_string : simpl never.

(** ** Data model *)

(** A cell of a row as the MySQL driver returns it. [VOther] stands for
    any other object (a decimal, a float, a date), given by its [str()]. *)
Inductive value :=
| VNone
| VInt (z : Z)
| VStr (s : pystr)
| VOther (shown : pystr).

(** [str(v)] *)
Definition str (v : value) : pystr :=
  match v with
  | VNone => py "None"
  | VInt z => str_of_int z
  | VStr s => s
  | VOther shown => shown
  end.

(** A row of a [dictionary=True] cursor: column name to cell, in the
    order of the columns. As the keys of a [dict], the names of a row
    are distinct; [row_get] returns the cell of the first match. *)
Definition row := list (pystr * value).

(** [list(r.keys())] *)
Definition keys (r : row) : list pystr := map fst r.

(** [r.get(col, default)] *)
Fixpoint row_get (r : row) (col : pystr) (default : value) : value :=
  match r with
  | [] => default
  | (k, v) :: r' => if decide (k = col) then v else row_get r' col default
  end.

(** The dictionary returned by [query_with_cache]. *)
Record ResultSet := mkResultSet {
  sql : pystr;
  data : list row;
  cache_hit : bool;
  count : Z
}.

(** The outcome of a call that may raise. *)
Inductive outcome (A : Type) :=
| Ok (a : A)
| Raise (msg : pystr).
Arguments Ok {A} a.
Arguments Raise {A} msg.

(** How the collaborators answer during one call. *)
Record Env := mkEnv {
  (* redis.Redis(...) followed by client.ping() *)
  redis_ping : outcome unit;
  (* whether GET / SETEX reach the server *)
  redis_get_link : outcome unit;
  redis_setex_link : outcome unit;
  (* llm_service.get_sql_from_llm, not part of this file *)
  get_sql_from_llm : pystr -> outcome pystr;
  (* mysql.connector.connect with DB_CONFIG *)
  db_connect : outcome unit;
  (* the steps of a statement on an open connection *)
  db_cursor : outcome unit;
  db_execute : pystr -> outcome unit;
  db_fetchall : pystr -> outcome (list row);
  db_cursor_close : outcome unit;
  db_conn_close : outcome unit
}.

(** What is observable of a run. *)
Inductive event :=
| EvRedisPing
| EvRedisGet (key : pystr)
| EvRedisSetex (key : pystr) (ttl : Z) (v : pystr)
| EvMockContains (key : pystr)
| EvMockRead (key : pystr)
| EvMockWrite (key v : pystr)
| EvGenerate (prompt : pystr)
| EvDbConnect
| EvDbCursor
| EvDbExecute (stmt : pystr)
| EvDbFetchall
| EvDbCursorClose
| EvDbConnClose
| EvPrint (line : pystr).

(** The mutable state: the module global [mock_cache] and the entries of
    the Redis server (value and time to live). *)
Record State := mkState {
  mock_cache : gmap pystr pystr;
  redis_db : gmap pystr (pystr * Z)
}.

(** ** The state-and-log monad *)

Definition M (A : Type) : Type := State -> A * State * list event.

#[global] Instance M_ret : MRet M := fun A (a : A) st => (a, st, []).

#[global] Instance M_bind : MBind M := fun A B (k : A -> M B) (m : M A) st =>
  let '(a, st1, l1) := m st in
  let '(b, st2, l2) := k a st1 in
  (b, st2, l1 ++ l2).

Definition emit (e : event) : M unit := fun st => (tt, st, [e]).

Definition print (line : pystr) : M unit := emit (EvPrint line).

Definition get_state : M State := fun st => (st, st, []).

Definition put_state (st : State) : M unit := fun _ => (tt, st, []).

(** Projections of a run. *)
Definition result_of {A} (r : A * State * list event) : A := r.1.1.
Definition state_of {A} (r : A * State * list event) : State := r.1.2.
Definition log_of {A} (r : A * State * list event) : list event := r.2.

(** A [try:] block: the first step that raises ends it. *)
Abbreviation T A := (M (outcome A)).

Definition try_bind {A B} (m : T A) (k : A -> T B) : T B :=
  r ← m;
  match r with
  | Ok a => k a
  | Raise msg => mret (Raise msg)
  end.

Notation "x ←? y ; z" := (try_bind y (fun x => z))
  (at level 20, y at level 100, z at level 200, only parsing).

(** A call to a collaborator: logged, then answered by the environment. *)
Definition call {A} (e : event) (answer : outcome A) : T A :=
  emit e;; mret answer.

(** A [for] loop of statements. *)
Fixpoint for_each {A} (l : list A) (body : A -> M unit) : M unit :=
  match l with
  | [] => mret tt
  | x :: l' => body x;; for_each l' body
  end.

(** ** The Redis client and the in-memory fallback *)

Definition with_redis_db (f : gmap pystr (pystr * Z) -> gmap pystr (pystr * Z))
    (st : State) : State :=
  {| mock_cache := mock_cache st; redis_db := f (redis_db st) |}.

Definition with_mock_cache (f : gmap pystr pystr -> gmap pystr pystr)
    (st : State) : State :=
  {| mock_cache := f (mock_cache st); redis_db := redis_db st |}.

(** [client.get(key)]: the stored string, or [None]. *)
Definition redis_get (e : Env) (key : pystr) : T (option pystr) :=
  _ ←? call (EvRedisGet key) (redis_get_link e);
  st ← get_state;
  mret (Ok (fst <$> redis_db st !! key)).

(** [client.setex(key, ttl, v)] *)
Definition redis_setex (e : Env) (key : pystr) (ttl : Z) (v : pystr) : T unit :=
  _ ←? call (EvRedisSetex key ttl v) (redis_setex_link e);
  st ← get_state;
  put_state (with_redis_db <[key := (v, ttl)]> st);;
  mret (Ok tt).

(** [key in mock_cache] *)
Definition mock_contains (key : pystr) : M bool :=
  emit (EvMockContains key);;
  st ← get_state;
  mret (bool_decide (is_Some (mock_cache st !! key))).

(** [mock_cache[key]]; only evaluated after [key in mock_cache], so the
    [KeyError] of an absent key does not arise. *)
Definition mock_read (key : pystr) : M pystr :=
  emit (EvMockRead key);;
  st ← get_state;
  mret (default [] (mock_cache st !! key)).

(** [mock_cache[key] = v] *)
Definition mock_write (key v : pystr) : M unit :=
  emit (EvMockWrite key v);;
  st ← get_state;
  put_state (with_mock_cache <[key := v]> st).

(** ** The program *)

Definition get_redis_client (e : Env) : M (option unit) :=
  r ← call EvRedisPing (redis_ping e);
  match r with
  | Ok _ => mret (Some tt)
  | Raise msg => print (py "⚠️  Redis 未连接: " ++ msg);; mret None
  end.

Definition get_db_connection (e : Env) : M (option unit) :=
  r ← call EvDbConnect (db_connect e);
  match r with
  | Ok _ => mret (Some tt)
  | Raise msg => print (py "❌  MySQL 连接失败: " ++ msg);; mret None
  end.

Definition execute_sql (e : Env) (sql : pystr) : M (option (list row)) :=
  conn ← get_db_connection e;
  match conn with
  | None => mret None
  | Some _ =>
      r ← (_ ←? call EvDbCursor (db_cursor e);
           _ ←? call (EvDbExecute sql) (db_execute e sql);
           results ←? call EvDbFetchall (db_fetchall e sql);
           _ ←? call EvDbCursorClose (db_cursor_close e);
           _ ←? call EvDbConnClose (db_conn_close e);
           mret (Ok results));
      match r with
      | Ok results => mret (Some results)
      | Raise msg => print (py "❌  SQL 执行失败: " ++ msg);; mret None
      end
  end.

Definition query_with_cache (e : Env) (prompt : pystr) : M (option ResultSet) :=
  redis_client ← get_redis_client e;
  let cache_key := py "cache:" ++ prompt in
  (* 1. look the prompt up in the cache *)
  '(sql, cache_hit) ←
    match redis_client with
    | Some _ =>
        r ← redis_get e cache_key;
        match r with
        | Ok sql =>
            if truthy sql
            then print (py "🚀  [Redis 缓存命中]");; mret (sql, true)
            else mret (sql, false)
        | Raise msg =>
            print (py "⚠️  Redis 读取失败: " ++ msg);; mret (None, false)
        end
    | None =>
        found ← mock_contains prompt;
        if found : bool
        then sql ← mock_read prompt;
             print (py "📦  [内存缓存命中]");; mret (Some sql, true)
        else mret (None, false)
    end;
  (* 2. no usable entry: ask the generator, then fill the cache;
        [None] stands for the early [return None] *)
  resolved ←
    (if negb (truthy sql)
     then
       print (py "🤖  [AI 生成 SQL...]");;
       r ← call (EvGenerate prompt) (get_sql_from_llm e prompt);
       match r with
       | Raise msg => print (py "❌  AI 调用失败: " ++ msg);; mret None
       | Ok sql =>
           print (py "📄  [生成 SQL] " ++ sql);;
           match redis_client with
           | Some _ =>
               w ← redis_setex e cache_key 3600 sql;
               match w with
               | Ok _ => print (py "💾  [已缓存到 Redis]")
               | Raise msg => print (py "⚠️  Redis 写入失败: " ++ msg)
               end
           | None =>
               mock_write prompt sql;;
               print (py "💾  [已缓存到内存]")
           end;;
           mret (Some sql)
       end
     else
       (* [sql] is a non-empty string here *)
       print (py "📄  [缓存 SQL] " ++ default [] sql);; mret sql);
  (* 3. run the statement *)
  match resolved with
  | None => mret None
  | Some sql =>
      print (py "🔍  [执行查询...]");;
      results ← execute_sql e sql;
      match results with
      | None => mret None
      | Some results =>
          mret (Some {| sql := sql; data := results;
                        cache_hit := cache_hit; count := len results |})
      end
  end.

(** *** The table printer *)

(** The body of the loop that fills [col_widths]. *)
Definition col_width (data : list row) (col : pystr) : Z :=
  let header_len := len col in
  let max_data_len :=
    py_max (map (fun r => len (str (row_get r col (VStr [])))) data) in
  Z.max header_len max_data_len + 2.

Definition compute_col_widths (columns : list pystr) (data : list row)
    : gmap pystr Z :=
  foldl (fun widths col => <[col := col_width data col]> widths) ∅ columns.

(** [col_widths[col]]; every column asked for has been entered. *)
Definition width_of (col_widths : gmap pystr Z) (col : pystr) : Z :=
  default 0 (col_widths !! col).

Definition header_line (columns : list pystr) (col_widths : gmap pystr Z)
    : pystr :=
  foldl (fun header col =>
           header ++ py " " ++ format_center (width_of col_widths col - 2) col
                  ++ py " |")
        (py "|") columns.

Definition data_line (columns : list pystr) (col_widths : gmap pystr Z)
    (r : row) : pystr :=
  foldl (fun line col =>
           let val :=
             slice_to (width_of col_widths col - 2)
                      (str (row_get r col (VStr []))) in
           line ++ py " " ++ format_left (width_of col_widths col - 2) val
                ++ py " |")
        (py "|") columns.

(** [sum(col_widths.values()) + len(columns) + 1] *)
Definition total_width_of (col_widths : gmap pystr Z) (columns : list pystr)
    : Z :=
  map_fold (fun _ w acc => w + acc) 0 col_widths + len columns + 1.

Definition summary_line (results : ResultSet) : pystr :=
  py "📊  共 " ++ str_of_int (count results) ++ py " 条记录 "
    ++ (if cache_hit results then py "(来自缓存)" else []).

Definition print_results (results : option ResultSet) : M unit :=
  match results with
  | None => print (py "⚠️  查询失败，无数据返回")
  | Some results =>
      match data results with
      | [] => print (py "📭  查询结果为空")
      | first :: _ =>
          let data := data results in
          let columns := keys first in
          let col_widths := compute_col_widths columns data in
          let total_width := total_width_of col_widths columns in
          print (repeat_char equals_sign total_width);;
          print (header_line columns col_widths);;
          print (repeat_char equals_sign total_width);;
          for_each data (fun r => print (data_line columns col_widths r));;
          print (repeat_char equals_sign total_width);;
          print (summary_line results)
      end
  end.

(** *** The interactive loop, for inputs that are queries *)

(** One turn of the loop of [main] for an input line that is neither
    empty nor one of the commands. *)
Definition ordinary_query (e : Env) (user_input : pystr) : M unit :=
  print (newline :: py "🔎  正在查询: " ++ user_input);;
  print (repeat_char hyphen 60);;
  results ← query_with_cache e user_input;
  match results with
  | Some _ => print_results results
  | None => print (py "❌  查询失败")
  end.

(** [main] after the help banner, reading the given queries and then a
    quit command; [e0] answers the two start-up probes and each query
    comes with the environment of its turn. The prompt that [input]
    writes before each line is not part of the log. *)
Definition main (e0 : Env) (inputs : list (Env * pystr)) : M unit :=
  conn ← get_db_connection e0;
  match conn with
  | None => print (py "❌  MySQL 连接失败，请检查配置")
  | Some _ =>
      print (py "✅  MySQL 连接成功!");;
      closed ← call EvDbConnClose (db_conn_close e0);
      match closed with
      | Raise _ => mret tt (* not caught: the process ends *)
      | Ok _ =>
          redis_client ← get_redis_client e0;
          match redis_client with
          | Some _ => print (py "✅  Redis 连接成功!")
          | None => print (py "⚠️   Redis 未连接，将使用内存缓存")
          end;;
          print (newline :: repeat_char equals_sign 60);;
          for_each inputs (fun '(e, user_input) => ordinary_query e user_input);;
          print (py "👋  再见!")
      end
  end.

(** The state of a fresh process that finds the given Redis contents. *)
Definition fresh_process (db : gmap pystr (pystr * Z)) : State :=
  {| mock_cache := ∅; redis_db := db |}.

(** ** Observations on a log *)

Definition is_generate (ev : event) : bool :=
  match ev with EvGenerate _ => true | _ => false end.

(** A read or write of the Shared backend. *)
Definition is_shared_access (ev : event) : bool :=
  match ev with EvRedisGet _ | EvRedisSetex _ _ _ => true | _ => false end.

(** A membership test, read or write of [mock_cache]. *)
Definition is_local_access (ev : event) : bool :=
  match ev with
  | EvMockContains _ | EvMockRead _ | EvMockWrite _ _ => true
  | _ => false
  end.

Definition is_cache_write (ev : event) : bool :=
  match ev with EvRedisSetex _ _ _ | EvMockWrite _ _ => true | _ => false end.

(** Any call to the Relational Store. *)
Definition is_db_call (ev : event) : bool :=
  match ev with
  | EvDbConnect | EvDbCursor | EvDbExecute _ | EvDbFetchall
  | EvDbCursorClose | EvDbConnClose => true
  | _ => false
  end.

Definition is_probe (ev : event) : bool :=
  match ev with EvRedisPing => true | _ => false end.

(** The key a cache access names. *)
Definition cache_key_of (ev : event) : option pystr :=
  match ev with
  | EvRedisGet k | EvRedisSetex k _ _
  | EvMockContains k | EvMockRead k | EvMockWrite k _ => Some k
  | _ => None
  end.

(** How many events of a log satisfy [p]. *)
Definition count_events (p : event -> bool) (l : list event) : nat :=
  length (List.filter p l).

(** The lines a log prints. *)
Definition printed (l : list event) : list pystr :=
  omap (fun ev => match ev with EvPrint line => Some line | _ => None end) l.

(** The backend a call is given by its own probe. *)
Inductive backend := Shared | Local.

Definition backend_of (e : Env) : backend :=
  match redis_ping e with
  | Ok _ => Shared
  | Raise _ => Local
  end.

(** What the cache lookup of a call returns for a prompt: the Redis
    entry under the namespaced key when the probe and the read succeed,
    nothing when the probe succeeds and the read raises (whatever Redis
    holds), the [mock_cache] entry when the probe fails. *)
Definition stored_sql (e : Env) (st : State) (prompt : pystr) : option pystr :=
  match backend_of e with
  | Shared =>
      match redis_get_link e with
      | Ok _ => fst <$> redis_db st !! (py "cache:" ++ prompt)
      | Raise _ => None
      end
  | Local => mock_cache st !! prompt
  end.

(** The statement runs to the end on a fresh connection and fetches [rows]. *)
Definition executes (e : Env) (stmt : pystr) (rows : list row) : Prop :=
  db_connect e = Ok tt /\ db_cursor e = Ok tt /\ db_execute e stmt = Ok tt /\
  db_fetchall e stmt = Ok rows /\
  db_cursor_close e = Ok tt /\ db_conn_close e = Ok tt.

Definition is_conn_close (ev : event) : bool :=
  match ev with EvDbConnClose => true | _ => false end.

(** ** The two halves of [query_with_cache]

    For the proofs, the resolution of the statement (steps 1 and 2 of
    [query_with_cache]) and its execution (step 3) are also given on
    their own; [query_with_cache_split] shows that [query_with_cache]
    is the first followed by the second. *)

Definition resolve_sql (e : Env) (prompt : pystr) : M (option (pystr * bool)) :=
  redis_client ← get_redis_client e;
  let cache_key := py "cache:" ++ prompt in
  '(sql, cache_hit) ←
    match redis_client with
    | Some _ =>
        r ← redis_get e cache_key;
        match r with
        | Ok sql =>
            if truthy sql
            then print (py "🚀  [Redis 缓存命中]");; mret (sql, true)
            else mret (sql, false)
        | Raise msg =>
            print (py "⚠️  Redis 读取失败: " ++ msg);; mret (None, false)
        end
    | None =>
        found ← mock_contains prompt;
        if found : bool
        then sql ← mock_read prompt;
             print (py "📦  [内存缓存命中]");; mret (Some sql, true)
        else mret (None, false)
    end;
  resolved ←
    (if negb (truthy sql)
     then
       print (py "🤖  [AI 生成 SQL...]");;
       r ← call (EvGenerate prompt) (get_sql_from_llm e prompt);
       match r with
       | Raise msg => print (py "❌  AI 调用失败: " ++ msg);; mret None
       | Ok sql =>
           print (py "📄  [生成 SQL] " ++ sql);;
           match redis_client with
           | Some _ =>
               w ← redis_setex e cache_key 3600 sql;
               match w with
               | Ok _ => print (py "💾  [已缓存到 Redis]")
               | Raise msg => print (py "⚠️  Redis 写入失败: " ++ msg)
               end
           | None =>
               mock_write prompt sql;;
               print (py "💾  [已缓存到内存]")
           end;;
           mret (Some sql)
       end
     else
       print (py "📄  [缓存 SQL] " ++ default [] sql);; mret sql);
  mret ((fun sql => (sql, cache_hit)) <$> resolved).

Definition run_resolved (e : Env) (resolved : option (pystr * bool))
    : M (option ResultSet) :=
  match resolved with
  | None => mret None
  | Some (sql, cache_hit) =>
      print (py "🔍  [执行查询...]");;
      results ← execute_sql e sql;
      match results with
      | None => mret None
      | Some results =>
          mret (Some {| sql := sql; data := results;
                        cache_hit := cache_hit; count := len results |})
      end
  end.

(** The dictionary that step 3 returns for the fetched rows. *)
Definition result_dict (sql : pystr) (cache_hit : bool) (results : list row)
    : ResultSet :=
  {| sql := sql; data := results; cache_hit := cache_hit;
     count := len results |}.

(** ** Concrete collaborators for the examples *)

Definition a_prompt : pystr := py "query all projects".
Definition a_statement : pystr := py "SELECT * FROM ai_projects".
Definition a_bad_statement : pystr := py "SELEC * FROM ai_projects".

(** The two rows of the formatter example. *)
Definition two_rows : list row :=
  [ [(py "id", VStr (py "1")); (py "name", VStr (py "Alpha"))];
    [(py "id", VStr (py "2")); (py "name", VStr (py "B"))] ].

(** Everything answers: Redis is reachable, the generator returns
    [a_statement], and a statement fetches [rows]. *)
Definition healthy (rows : list row) : Env :=
  {| redis_ping := Ok tt;
     redis_get_link := Ok tt;
     redis_setex_link := Ok tt;
     get_sql_from_llm := fun _ => Ok a_statement;
     db_connect := Ok tt;
     db_cursor := Ok tt;
     db_execute := fun _ => Ok tt;
     db_fetchall := fun _ => Ok rows;
     db_cursor_close := Ok tt;
     db_conn_close := Ok tt |}.

(** Redis does not answer the probe. *)
Definition redis_down (e : Env) : Env :=
  {| redis_ping := Raise (py "Connection refused");
     redis_get_link := redis_get_link e;
     redis_setex_link := redis_setex_link e;
     get_sql_from_llm := get_sql_from_llm e;
     db_connect := db_connect e;
     db_cursor := db_cursor e;
     db_execute := db_execute e;
     db_fetchall := db_fetchall e;
     db_cursor_close := db_cursor_close e;
     db_conn_close := db_conn_close e |}.

(** Redis answers the probe and reads but refuses writes, as a
    read-only replica does. *)
Definition redis_read_only (e : Env) : Env :=
  {| redis_ping := redis_ping e;
     redis_get_link := redis_get_link e;
     redis_setex_link := Raise (py "READONLY You can't write against a read only replica.");
     get_sql_from_llm := get_sql_from_llm e;
     db_connect := db_connect e;
     db_cursor := db_cursor e;
     db_execute := db_execute e;
     db_fetchall := db_fetchall e;
     db_cursor_close := db_cursor_close e;
     db_conn_close := db_conn_close e |}.

(** The generator raises. *)
Definition generator_down (e : Env) : Env :=
  {| redis_ping := redis_ping e;
     redis_get_link := redis_get_link e;
     redis_setex_link := redis_setex_link e;
     get_sql_from_llm := fun _ => Raise (py "Request timed out.");
     db_connect := db_connect e;
     db_cursor := db_cursor e;
     db_execute := db_execute e;
     db_fetchall := db_fetchall e;
     db_cursor_close := db_cursor_close e;
     db_conn_close := db_conn_close e |}.

(** MySQL refuses the connection. *)
Definition mysql_down (e : Env) : Env :=
  {| redis_ping := redis_ping e;
     redis_get_link := redis_get_link e;
     redis_setex_link := redis_setex_link e;
     get_sql_from_llm := get_sql_from_llm e;
     db_connect := Raise (py "Can't connect to MySQL server");
     db_cursor := db_cursor e;
     db_execute := db_execute e;
     db_fetchall := db_fetchall e;
     db_cursor_close := db_cursor_close e;
     db_conn_close := db_conn_close e |}.

(** MySQL rejects every statement when it is executed. *)
Definition statements_rejected (e : Env) : Env :=
  {| redis_ping := redis_ping e;
     redis_get_link := redis_get_link e;
     redis_setex_link := redis_setex_link e;
     get_sql_from_llm := get_sql_from_llm e;
     db_connect := db_connect e;
     db_cursor := db_cursor e;
     db_execute := fun _ => Raise (py "You have an error in your SQL syntax");
     db_fetchall := db_fetchall e;
     db_cursor_close := db_cursor_close e;
     db_conn_close := db_conn_close e |}.

(** A process whose fallback mapping already holds [a_statement] for
    [a_prompt]. *)
Definition local_entry : State :=
  {| mock_cache := {[ a_prompt := a_statement ]}; redis_db := ∅ |}.

(** ** The commands of the shell

    The functions behind the commands of the interactive loop, and the
    loop itself with its dispatch. What the keyboard delivers is a list:
    a line of text or an interrupt (Ctrl-C while [input] waits), each
    with the environment in force once it has been read; the end of the
    list is the end of the input, where [input] raises [EOFError]. The
    prompts that [input] writes are not part of the log. *)

(** [c.isspace()]: the characters that [str.strip()] removes. *)
Definition is_space (c : N) : bool :=
  ((9 <=? c) && (c <=? 13) || (28 <=? c) && (c <=? 32)
   || (c =? 133) || (c =? 160) || (c =? 5760)
   || (8192 <=? c) && (c <=? 8202)
   || (c =? 8232) || (c =? 8233) || (c =? 8239) || (c =? 8287)
   || (c =? 12288))%N.

(** [s.lstrip()] *)
Fixpoint lstrip (s : pystr) : pystr :=
  match s with
  | [] => []
  | c :: s' => if is_space c then lstrip s' else s
  end.

(** [s.strip()] *)
Definition strip (s : pystr) : pystr :=
  reverse (lstrip (reverse (lstrip s))).

(** The text that [show_help] prints, in one call of [print]. *)
Definition help_banner : pystr := py "
╔══════════════════════════════════════════════════════════════╗
║           🤖 AI 数据库查询助手 - 终端版                       ║
╠══════════════════════════════════════════════════════════════╣
║  使用方法:                                                    ║
║    直接输入自然语言查询，例如:                                ║
║    - 查询所有项目                                            ║
║    - 查看张三负责的项目                                      ║
║    - 预算大于10万的项目                                      ║
║    - 已交付的项目有哪些                                      ║
╠══════════════════════════════════════════════════════════════╣
║  特殊命令:                                                    ║
║    /help     - 显示帮助                                      ║
║    /sql      - 直接执行 SQL 语句                             ║
║    /tables   - 查看所有表                                    ║
║    /schema   - 查看表结构                                    ║
║    /quit     - 退出程序                                      ║
╚══════════════════════════════════════════════════════════════╝
    ".

Definition show_help : M unit := print help_banner.

(** A [for] loop whose body may raise: the first exception ends it. *)
Fixpoint try_for_each {A} (l : list A) (body : A -> T unit) : T unit :=
  match l with
  | [] => mret (Ok tt)
  | x :: l' => _ ←? body x; try_for_each l' body
  end.

(** [list(r.values())[0]]: [IndexError] on a row without columns. *)
Definition first_value (r : row) : outcome value :=
  match r with
  | [] => Raise (py "list index out of range")
  | (_, v) :: _ => Ok v
  end.

(** [r[key]]: [KeyError] on a missing column; the message is the
    [repr] of the key, which for the four keys that [show_schema] uses
    is the key between single quotes. *)
Fixpoint row_item (r : row) (key : pystr) : outcome value :=
  match r with
  | [] => Raise (py "'" ++ key ++ py "'")
  | (k, v) :: r' => if decide (k = key) then Ok v else row_item r' key
  end.

Definition show_tables (e : Env) : T unit :=
  results ← execute_sql e (py "SHOW TABLES");
  match results with
  | Some ((_ :: _) as results) =>
      print (py "📋  数据库中的表:");;
      try_for_each results (fun r =>
        v ←? mret (first_value r);
        print (py "   • " ++ str v);;
        mret (Ok tt))
  | _ => mret (Ok tt)
  end.

Definition show_schema (e : Env) : T unit :=
  print (py "📐  ai_projects 表结构:");;
  results ← execute_sql e (py "DESCRIBE ai_projects");
  match results with
  | Some ((_ :: _) as results) =>
      try_for_each results (fun r =>
        field ←? mret (row_item r (py "Field"));
        type ←? mret (row_item r (py "Type"));
        null ←? mret (row_item r (py "Null"));
        key ←? mret (row_item r (py "Key"));
        print (py "   • " ++ str field ++ py ": " ++ str type ++ py " "
                 ++ str null ++ py " " ++ str key);;
        mret (Ok tt))
  | _ => mret (Ok tt)
  end.

(** [direct_sql] from the point where [input] has returned [line]. *)
Definition direct_sql (e : Env) (line : pystr) : M unit :=
  let sql := strip line in
  match sql with
  | [] => mret tt
  | _ :: _ =>
      print (py "🔍  执行: " ++ sql);;
      results ← execute_sql e sql;
      match results with
      | Some results =>
          print_results
            (Some {| sql := sql; data := results; cache_hit := false;
                     count := len results |})
      | None => mret tt
      end
  end.

(** What [input] delivers. *)
Inductive keyboard :=
| Line (text : pystr)
| Interrupt.

(** How a session ends. [EndOfInput] stands for a loop that goes on for
    ever: at the end of the input every further [input] raises
    [EOFError], which the loop reports before it asks again;
    [Uncaught] is an exception that no handler catches. *)
Inductive session_end :=
| NoDatabase
| Uncaught
| Quit
| Interrupted
| EndOfInput.

Module Interactive.
Section Shell.

(** [str.lower], a function of the Python library. *)
Variable lower : pystr -> pystr.

Definition quit_words : list pystr :=
  [py "/quit"; py "/exit"; py "quit"; py "exit"].

(** The handler [except Exception as e] of the loop. *)
Definition report (r : outcome unit) : M unit :=
  match r with
  | Ok _ => mret tt
  | Raise msg => print (py "❌  错误: " ++ msg)
  end.

Definition end_of_input : pystr := py "EOF when reading a line".

Definition goodbye_on_interrupt : pystr :=
  newline :: newline :: py "👋  再见!".

(** The [while True] loop of [main]. *)
Fixpoint loop (inputs : list (Env * keyboard)) : M session_end :=
  match inputs with
  | [] => report (Raise end_of_input);; mret EndOfInput
  | (_, Interrupt) :: _ => print goodbye_on_interrupt;; mret Interrupted
  | (e, Line text) :: rest =>
      let user_input := strip text in
      if bool_decide (user_input = []) then loop rest
      else if bool_decide (lower user_input ∈ quit_words)
      then print (py "👋  再见!");; mret Quit
      else if bool_decide (lower user_input = py "/help")
      then show_help;; loop rest
      else if bool_decide (lower user_input = py "/tables")
      then r ← show_tables e; report r;; loop rest
      else if bool_decide (lower user_input = py "/schema")
      then r ← show_schema e; report r;; loop rest
      else if bool_decide (lower user_input = py "/sql")
      then
        (* [direct_sql] reads the statement with an [input] of its own *)
        match rest with
        | [] => report (Raise end_of_input);; loop rest
        | (_, Interrupt) :: _ =>
            print goodbye_on_interrupt;; mret Interrupted
        | (e', Line statement) :: rest' =>
            direct_sql e' statement;; loop rest'
        end
      else ordinary_query e user_input;; loop rest
  end.

(** [main]; [e0] answers the two start-up probes. *)
Definition main (e0 : Env) (inputs : list (Env * keyboard)) : M session_end :=
  show_help;;
  conn ← get_db_connection e0;
  match conn with
  | None => print (py "❌  MySQL 连接失败，请检查配置");; mret NoDatabase
  | Some _ =>
      print (py "✅  MySQL 连接成功!");;
      closed ← call EvDbConnClose (db_conn_close e0);
      match closed with
      | Raise _ => mret Uncaught
      | Ok _ =>
          redis_client ← get_redis_client e0;
          match redis_client with
          | Some _ => print (py "✅  Redis 连接成功!")
          | None => print (py "⚠️   Redis 未连接，将使用内存缓存")
          end;;
          print (newline :: repeat_char equals_sign 60);;
          loop inputs
      end
  end.

End Shell.
End Interactive.

(** [str.lower] on the letters A to Z, leaving every other character
    as it is: what [str.lower] does on a string of ASCII characters. *)
Definition ascii_lower (s : pystr) : pystr :=
  map (fun c => if ((65 <=? c) && (c <=? 90))%N then (c + 32)%N else c) s.

(** ** Further observations *)

(** The call returned. *)
Definition is_ok {A} (r : outcome A) : bool :=
  match r with Ok _ => true | Raise _ => false end.

Definition is_db_connect (ev : event) : bool :=
  match ev with EvDbConnect => true | _ => false end.

Definition is_db_execute (ev : event) : bool :=
  match ev with EvDbExecute _ => true | _ => false end.

Definition is_print (ev : event) : bool :=
  match ev with EvPrint _ => true | _ => false end.

(** The steps of [execute_sql] that come before [conn.close()]. *)
Definition reaches_close (e : Env) (stmt : pystr) : bool :=
  is_ok (db_connect e) && is_ok (db_cursor e) && is_ok (db_execute e stmt)
  && is_ok (db_fetchall e stmt) && is_ok (db_cursor_close e).

(** The state after the cache write that follows a generation: the
    entry of the backend in use is set, with a time to live of 3600 on
    Redis; a refused write changes nothing. *)
Definition after_store (e : Env) (prompt stmt : pystr) (st : State) : State :=
  match backend_of e with
  | Shared =>
      if is_ok (redis_setex_link e)
      then with_redis_db <[py "cache:" ++ prompt := (stmt, 3600)]> st
      else st
  | Local => with_mock_cache <[prompt := stmt]> st
  end.

(** The fallback mapping is in use and has an entry for the prompt,
    usable or not. *)
Definition local_entry_present (e : Env) (st : State) (prompt : pystr) : bool :=
  match backend_of e with
  | Shared => false
  | Local => bool_decide (is_Some (mock_cache st !! prompt))
  end.

(** The sum of a list of integers. *)
Definition sum_Z (l : list Z) : Z := foldr Z.add 0 l.

(** The first cell of a row that has one. *)
Definition first_cell (r : row) : value :=
  match r with
  | (_, v) :: _ => v
  | [] => VNone
  end.

(** The columns that [show_schema] reads from each row. *)
Definition schema_keys : list pystr :=
  [py "Field"; py "Type"; py "Null"; py "Key"].

(** The line that [show_schema] prints for a row that has them. *)
Definition schema_line (r : row) : pystr :=
  py "   • " ++ str (row_get r (py "Field") VNone) ++ py ": "
    ++ str (row_get r (py "Type") VNone) ++ py " "
    ++ str (row_get r (py "Null") VNone) ++ py " "
    ++ str (row_get r (py "Key") VNone).

(** The prompts of the calls of the generator, in order. *)
Definition generated (l : list event) : list pystr :=
  omap (fun ev => match ev with EvGenerate p => Some p | _ => None end) l.

(** What the loop does with a line. *)
Inductive action :=
| Skip
| Leave
| Help
| Tables
| Schema
| Sql
| Query (prompt : pystr).

Section Sessions.

Variable lower : pystr -> pystr.

(** The chain of tests of the loop, as a classification of the line. *)
Definition dispatch (text : pystr) : action :=
  let user_input := strip text in
  if bool_decide (user_input = []) then Skip
  else if bool_decide (lower user_input ∈ Interactive.quit_words) then Leave
  else if bool_decide (lower user_input = py "/help") then Help
  else if bool_decide (lower user_input = py "/tables") then Tables
  else if bool_decide (lower user_input = py "/schema") then Schema
  else if bool_decide (lower user_input = py "/sql") then Sql
  else Query user_input.

(** The natural-language queries of a session: the stripped lines that
    are neither blank nor a command, up to the line that ends the
    session; the line that [/sql] reads as its statement is not one. *)
Fixpoint query_lines (inputs : list (Env * keyboard)) : list pystr :=
  match inputs with
  | [] => []
  | (_, Interrupt) :: _ => []
  | (_, Line text) :: rest =>
      match dispatch text with
      | Leave => []
      | Sql =>
          match rest with
          | (_, Line _) :: rest' => query_lines rest'
          | _ => []
          end
      | Query prompt => prompt :: query_lines rest
      | Skip | Help | Tables | Schema => query_lines rest
      end
  end.

End Sessions.

(** A log of calls to the Relational Store and of printed lines only:
    no probe of Redis, no access to a cache, no call of the generator. *)
Definition quiet (l : list event) : Prop :=
  forall ev, ev ∈ l -> is_db_call ev = true \/ is_print ev = true.

(** ** Proof tools *)

Ltac unfold_monad :=
  unfold try_bind, call, print, emit, get_state, put_state,
    mbind, M_bind, mret, M_ret in *.

Ltac unfold_cache :=
  unfold query_with_cache, resolve_sql, run_resolved, get_redis_client, redis_get, redis_setex,
    mock_contains, mock_read, mock_write in *;
  unfold_monad.

Ltac unfold_db :=
  unfold execute_sql, get_db_connection in *; unfold_monad.

(** Case analysis on the answer of a collaborator. *)
Ltac answer x := destruct x as [[]|?] eqn:?; cbn.
Ltac answer_with x := destruct x as [?|?] eqn:?; cbn.

Lemma count_events_nil p : count_events p [] = 0%nat.
Proof. reflexivity. Qed.

Lemma count_events_cons p ev l :
  count_events p (ev :: l) =
  ((if p ev then 1 else 0) + count_events p l)%nat.
Proof. unfold count_events. cbn. destruct (p ev); reflexivity. Qed.

Lemma count_events_app p l1 l2 :
  count_events p (l1 ++ l2) = (count_events p l1 + count_events p l2)%nat.
Proof. unfold count_events. by rewrite List.filter_app, length_app. Qed.

Lemma count_events_none p l :
  (forall ev, ev ∈ l -> p ev = false) -> count_events p l = 0%nat.
Proof.
  induction l as [|ev l IH]; intros H; [reflexivity|].
  rewrite count_events_cons, (H ev) by left.
  apply IH. intros ev' Hin. apply H. by right.
Qed.

Lemma count_events_none_inv p l ev :
  count_events p l = 0%nat -> ev ∈ l -> p ev = false.
Proof.
  induction l as [|ev' l IH]; intros H Hin; [by apply elem_of_nil in Hin|].
  rewrite count_events_cons in H.
  apply elem_of_cons in Hin as [->|Hin].
  - destruct (p ev'); [discriminate|reflexivity].
  - apply IH; [|done]. destruct (p ev'); [discriminate|done].
Qed.

(** *** The executor *)

(** [execute_sql] leaves both caches alone. *)
Lemma execute_sql_frame e stmt st : state_of (execute_sql e stmt st) = st.
Proof.
  unfold state_of. unfold_db. cbn.
  answer (db_connect e); [|done].
  answer (db_cursor e); [|done].
  answer (db_execute e stmt); [|done].
  answer_with (db_fetchall e stmt); [|done].
  answer (db_cursor_close e); [|done].
  answer (db_conn_close e); done.
Qed.

(** A statement that runs to the end: the rows, and the connection is
    opened, used and closed. *)
Lemma execute_sql_ok e stmt st rows :
  executes e stmt rows ->
  execute_sql e stmt st =
  (Some rows, st,
   [EvDbConnect; EvDbCursor; EvDbExecute stmt; EvDbFetchall;
    EvDbCursorClose; EvDbConnClose]).
Proof.
  intros (Hc & Hcur & Hex & Hf & Hcc & Hcl).
  unfold_db. rewrite Hc; cbn. rewrite Hcur; cbn. rewrite Hex; cbn.
  rewrite Hf; cbn. rewrite Hcc; cbn. rewrite Hcl; cbn. reflexivity.
Qed.

(** Rows come back only from a statement that ran to the end. *)
Lemma execute_sql_some e stmt st rows :
  result_of (execute_sql e stmt st) = Some rows -> executes e stmt rows.
Proof.
  unfold result_of, executes. unfold_db. cbn.
  answer (db_connect e); [|done].
  answer (db_cursor e); [|done].
  answer (db_execute e stmt); [|done].
  answer_with (db_fetchall e stmt); [|done].
  answer (db_cursor_close e); [|done].
  answer (db_conn_close e); [|done].
  intros [= ->]. done.
Qed.

(** The executor only talks to the Relational Store and the terminal. *)
Lemma execute_sql_log e stmt st ev :
  ev ∈ log_of (execute_sql e stmt st) ->
  is_db_call ev = true \/ exists line, ev = EvPrint line.
Proof.
  unfold log_of. unfold_db. cbn.
  answer (db_connect e);
    [answer (db_cursor e);
      [answer (db_execute e stmt);
        [answer_with (db_fetchall e stmt);
          [answer (db_cursor_close e); [answer (db_conn_close e)|]|]|]|]|].
  all: intros Hin;
    repeat (apply elem_of_cons in Hin as [->|Hin]; [eauto|]);
    by apply elem_of_nil in Hin.
Qed.

(** The statement the executor runs is the one it was given. *)
Lemma execute_sql_statement e stmt st stmt' :
  EvDbExecute stmt' ∈ log_of (execute_sql e stmt st) -> stmt' = stmt.
Proof.
  unfold log_of. unfold_db. cbn.
  answer (db_connect e);
    [answer (db_cursor e);
      [answer (db_execute e stmt);
        [answer_with (db_fetchall e stmt);
          [answer (db_cursor_close e); [answer (db_conn_close e)|]|]|]|]|].
  all: intros Hin;
    repeat (apply elem_of_cons in Hin as [Hin|Hin];
            [by (discriminate || injection Hin)|]);
    by apply elem_of_nil in Hin.
Qed.

Lemma execute_sql_count e stmt st p :
  (forall ev, is_db_call ev = true -> p ev = false) ->
  (forall line, p (EvPrint line) = false) ->
  count_events p (log_of (execute_sql e stmt st)) = 0%nat.
Proof.
  intros Hdb Hpr. apply count_events_none. intros ev Hin.
  apply execute_sql_log in Hin as [H|[line ->]]; auto.
Qed.

(** Replace a run of the executor by its three components. *)
Ltac run_execute :=
  match goal with
  | |- context [execute_sql ?e ?s ?st] =>
      let F := fresh "Hframe" in
      let L := fresh "Hlog" in
      let S := fresh "Hstmt" in
      let R := fresh "Hrows" in
      pose proof (execute_sql_frame e s st) as F;
      pose proof (fun ev => execute_sql_log e s st ev) as L;
      pose proof (fun s' => execute_sql_statement e s st s') as S;
      pose proof (fun rows => execute_sql_some e s st rows) as R;
      unfold state_of, log_of, result_of in F, L, S, R;
      destruct (execute_sql e s st) as [[[?|] ?] ?];
      cbn in F, L, S, R; subst; cbn
  end.

(** *** The resolver *)

Lemma query_with_cache_split e prompt st :
  query_with_cache e prompt st
  = (resolved ← resolve_sql e prompt; run_resolved e resolved) st.
Proof.
  unfold_cache. cbn.
  answer (redis_ping e).
  - answer (redis_get_link e).
    + destruct (redis_db st !! _) as [[[|c v] ttl]|]; cbn.
      * answer_with (get_sql_from_llm e prompt); [|done].
        answer (redis_setex_link e); by run_execute.
      * by run_execute.
      * answer_with (get_sql_from_llm e prompt); [|done].
        answer (redis_setex_link e); by run_execute.
    + answer_with (get_sql_from_llm e prompt); [|done].
      answer (redis_setex_link e); by run_execute.
  - destruct (mock_cache st !! prompt) as [[|c v]|] eqn:Hm; cbn;
      rewrite ?Hm; cbn.
    + answer_with (get_sql_from_llm e prompt); [|done]. by run_execute.
    + by run_execute.
    + answer_with (get_sql_from_llm e prompt); [|done]. by run_execute.
Qed.

(** Case analysis on the cache side of a resolution: the probe, then
    the read of the backend it selects. *)
Ltac cache_cases e prompt st :=
  unfold_cache; cbn in *;
  answer (redis_ping e);
  [ answer (redis_get_link e);
    [ let H := fresh "Hdb" in
      destruct (redis_db st !! (py "cache:" ++ prompt))
        as [[[|? ?] ?]|] eqn:H; cbn in *
    | ]
  | let H := fresh "Hm" in
    destruct (mock_cache st !! prompt) as [[|? ?]|] eqn:H; cbn in *;
    rewrite ?H in *; cbn in * ].

(** Case analysis on the generator and on the write to Redis, where
    the run reaches them. *)
Ltac generator_cases e prompt :=
  try match goal with
  | |- context [get_sql_from_llm e prompt] =>
      answer_with (get_sql_from_llm e prompt)
  | _ : context [get_sql_from_llm e prompt] |- _ =>
      answer_with (get_sql_from_llm e prompt)
  end;
  try match goal with
  | |- context [redis_setex_link e] => answer (redis_setex_link e)
  | _ : context [redis_setex_link e] |- _ => answer (redis_setex_link e)
  end;
  cbn in *.

(** Membership in an explicit log. *)
Ltac in_log H :=
  repeat (apply elem_of_cons in H as [H|H]; [try (subst; cbn; eauto; done)|]);
  try (by apply elem_of_nil in H).

Lemma run_resolved_none e st : run_resolved e None st = (None, st, []).
Proof. reflexivity. Qed.

Lemma run_resolved_some e stmt hit st :
  run_resolved e (Some (stmt, hit)) st
  = (result_dict stmt hit <$> result_of (execute_sql e stmt st), st,
     EvPrint (py "🔍  [执行查询...]") :: log_of (execute_sql e stmt st)).
Proof.
  unfold run_resolved, result_of, log_of. unfold_monad.
  run_execute; by rewrite app_nil_r.
Qed.

(** The executor does not read the caches. *)
Lemma execute_sql_any_state e stmt st st' :
  result_of (execute_sql e stmt st) = result_of (execute_sql e stmt st') /\
  log_of (execute_sql e stmt st) = log_of (execute_sql e stmt st').
Proof.
  unfold result_of, log_of. unfold_db. cbn.
  answer (db_connect e); [|done].
  answer (db_cursor e); [|done].
  answer (db_execute e stmt); [|done].
  answer_with (db_fetchall e stmt); [|done].
  answer (db_cursor_close e); [|done].
  answer (db_conn_close e); done.
Qed.

(** [query_with_cache] in terms of its two halves. *)
Lemma query_with_cache_unfold e prompt st :
  query_with_cache e prompt st =
  let r := resolve_sql e prompt st in
  match result_of r with
  | None => (None, state_of r, log_of r)
  | Some (stmt, hit) =>
      let x := execute_sql e stmt st in
      (result_dict stmt hit <$> result_of x, state_of r,
       log_of r ++ EvPrint (py "🔍  [执行查询...]") :: log_of x)
  end.
Proof.
  rewrite query_with_cache_split. unfold mbind, M_bind.
  destruct (resolve_sql e prompt st) as [[[[stmt hit]|] st1] l1];
    unfold result_of, state_of, log_of; cbn [fst snd].
  - rewrite run_resolved_some.
    destruct (execute_sql_any_state e stmt st1 st) as [E1 E2].
    unfold result_of, log_of in *. by rewrite E1, E2.
  - rewrite run_resolved_none. by rewrite app_nil_r.
Qed.

(** The resolver never talks to the Relational Store. *)
Lemma resolve_sql_no_db e prompt st :
  count_events is_db_call (log_of (resolve_sql e prompt st)) = 0%nat.
Proof.
  unfold log_of. cache_cases e prompt st; generator_cases e prompt; done.
Qed.

(** The generator is called exactly when the backend of the call has
    no usable statement for the prompt. *)
Lemma resolve_sql_generator e prompt st :
  count_events is_generate (log_of (resolve_sql e prompt st))
  = if truthy (stored_sql e st prompt) then 0%nat else 1%nat.
Proof.
  unfold log_of, stored_sql, backend_of.
  cache_cases e prompt st; generator_cases e prompt; done.
Qed.

(** A usable stored statement is what the resolver returns, with
    [cache_hit] set and the state as it was. *)
Lemma resolve_sql_hit e prompt st stmt :
  stored_sql e st prompt = Some stmt -> stmt <> [] ->
  result_of (resolve_sql e prompt st) = Some (stmt, true) /\
  state_of (resolve_sql e prompt st) = st.
Proof.
  unfold result_of, state_of, stored_sql, backend_of.
  intros Hs Hne.
  cache_cases e prompt st; generator_cases e prompt;
    simplify_eq; done.
Qed.

(** Counting in a run of [query_with_cache]: what is not a call to the
    store or a printed line comes from the resolver. *)
Lemma query_with_cache_count e prompt st p :
  (forall ev, is_db_call ev = true -> p ev = false) ->
  (forall line, p (EvPrint line) = false) ->
  count_events p (log_of (query_with_cache e prompt st))
  = count_events p (log_of (resolve_sql e prompt st)).
Proof.
  intros Hdb Hpr. rewrite query_with_cache_unfold. cbv zeta.
  destruct (result_of (resolve_sql e prompt st)) as [[stmt hit]|];
    unfold log_of at 1; cbn [snd]; [|done].
  rewrite count_events_app, count_events_cons, Hpr.
  rewrite execute_sql_count by done. lia.
Qed.

Lemma query_with_cache_state e prompt st :
  state_of (query_with_cache e prompt st) = state_of (resolve_sql e prompt st).
Proof.
  rewrite query_with_cache_unfold. cbv zeta.
  by destruct (result_of (resolve_sql e prompt st)) as [[stmt hit]|].
Qed.

Lemma query_with_cache_result e prompt st :
  result_of (query_with_cache e prompt st) =
  match result_of (resolve_sql e prompt st) with
  | None => None
  | Some (stmt, hit) =>
      result_dict stmt hit <$> result_of (execute_sql e stmt st)
  end.
Proof.
  rewrite query_with_cache_unfold. cbv zeta.
  by destruct (result_of (resolve_sql e prompt st)) as [[stmt hit]|].
Qed.

Lemma count_events_pos p l ev :
  ev ∈ l -> p ev = true -> count_events p l <> 0%nat.
Proof.
  intros Hin Hp Hz. pose proof (count_events_none_inv p l ev Hz Hin).
  congruence.
Qed.

(** When the generator raises, the resolver returns early: nothing is
    resolved, nothing is written, the state is as it was. *)
Lemma resolve_sql_generator_raises e prompt st msg :
  truthy (stored_sql e st prompt) = false ->
  get_sql_from_llm e prompt = Raise msg ->
  result_of (resolve_sql e prompt st) = None /\
  state_of (resolve_sql e prompt st) = st /\
  count_events is_cache_write (log_of (resolve_sql e prompt st)) = 0%nat.
Proof.
  unfold result_of, state_of, log_of, stored_sql, backend_of.
  intros Hs Hg.
  cache_cases e prompt st; rewrite ?Hg in *; cbn in *; done.
Qed.

(** A resolution works with one backend: the one its probe selects. *)
Lemma resolve_sql_backend e prompt st :
  let r := resolve_sql e prompt st in
  count_events is_probe (log_of r) = 1%nat /\
  match backend_of e with
  | Shared =>
      (1 <= count_events is_shared_access (log_of r))%nat /\
      count_events is_local_access (log_of r) = 0%nat /\
      mock_cache (state_of r) = mock_cache st
  | Local =>
      (1 <= count_events is_local_access (log_of r))%nat /\
      count_events is_shared_access (log_of r) = 0%nat /\
      redis_db (state_of r) = redis_db st
  end.
Proof.
  unfold result_of, state_of, log_of, backend_of.
  cache_cases e prompt st; generator_cases e prompt;
    repeat split; cbn; lia.
Qed.

(** The keys of the two backends. *)
Lemma resolve_sql_keys e prompt st ev :
  ev ∈ log_of (resolve_sql e prompt st) ->
  (is_shared_access ev = true -> cache_key_of ev = Some (py "cache:" ++ prompt)) /\
  (is_local_access ev = true -> cache_key_of ev = Some prompt).
Proof.
  unfold log_of. intros Hin.
  cache_cases e prompt st; generator_cases e prompt;
    in_log Hin.
Qed.

(** A miss followed by a successful generation: the statement is
    returned with [cache_hit] unset, and, when the write goes through,
    the backend of the call now holds it. *)
Lemma resolve_sql_miss e prompt st stmt :
  stored_sql e st prompt = None ->
  get_sql_from_llm e prompt = Ok stmt ->
  (backend_of e = Shared ->
   redis_get_link e = Ok tt /\ redis_setex_link e = Ok tt) ->
  result_of (resolve_sql e prompt st) = Some (stmt, false) /\
  stored_sql e (state_of (resolve_sql e prompt st)) prompt = Some stmt.
Proof.
  unfold result_of, state_of, stored_sql, backend_of.
  intros Hs Hg Hrel.
  cache_cases e prompt st; rewrite ?Hg in *; cbn in *;
    try (destruct Hrel as [? Hw]; [done|]; simplify_eq);
    try rewrite Hw; cbn; simplify_eq;
    rewrite ?lookup_insert_eq; done.
Qed.

(** With the Shared backend, the fallback mapping has no influence. *)
Lemma resolve_sql_ignores_mock_cache e prompt st m :
  redis_ping e = Ok tt ->
  let r := resolve_sql e prompt st in
  let r' := resolve_sql e prompt (with_mock_cache (fun _ => m) st) in
  result_of r' = result_of r /\ log_of r' = log_of r /\
  redis_db (state_of r') = redis_db (state_of r) /\
  mock_cache (state_of r') = m.
Proof.
  unfold result_of, state_of, log_of. intros Hp.
  unfold_cache. rewrite Hp. cbn.
  answer (redis_get_link e).
  - destruct (redis_db st !! (py "cache:" ++ prompt)) as [[[|? ?] ?]|];
      cbn; generator_cases e prompt; done.
  - generator_cases e prompt; done.
Qed.

(** With the Shared backend, a hit returns what Redis holds. *)
Lemma resolve_sql_shared_hit e prompt st stmt :
  redis_ping e = Ok tt ->
  result_of (resolve_sql e prompt st) = Some (stmt, true) ->
  exists ttl, redis_db st !! (py "cache:" ++ prompt) = Some (stmt, ttl).
Proof.
  unfold result_of. intros Hp.
  unfold_cache. rewrite Hp. cbn.
  answer (redis_get_link e).
  - destruct (redis_db st !! (py "cache:" ++ prompt)) as [[[|? ?] ?]|];
      cbn; generator_cases e prompt; intros; simplify_eq; eauto.
  - generator_cases e prompt; intros; simplify_eq.
Qed.

(** ** The claims on the resolver *)

(** C1, as the code has it. When the cache lookup of the call returns
    a non-empty statement for the prompt ([stored_sql]: the probed
    backend is read without an error and the read yields the
    statement), [query_with_cache] does not call the SQL generator and
    leaves both caches as they were; it goes on to execute the stored
    statement, and returns that same statement with [cache_hit] set
    exactly when the execution succeeds (the failure outcome [None]
    otherwise). *)
Theorem C1_stored_statement_skips_generator e st prompt stmt :
  stored_sql e st prompt = Some stmt -> stmt <> [] ->
  let run := query_with_cache e prompt st in
  count_events is_generate (log_of run) = 0%nat /\
  state_of run = st /\
  result_of run =
    match result_of (execute_sql e stmt st) with
    | Some rows =>
        Some {| sql := stmt; data := rows; cache_hit := true;
                count := len rows |}
    | None => None
    end.
Proof.
  intros Hs Hne run. subst run.
  destruct (resolve_sql_hit e prompt st stmt Hs Hne) as [Hr Hst].
  split; [|split].
  - rewrite query_with_cache_count by (by intros []).
    rewrite resolve_sql_generator, Hs. by destruct stmt.
  - by rewrite query_with_cache_state.
  - rewrite query_with_cache_result, Hr.
    by destruct (result_of (execute_sql e stmt st)).
Qed.

(** C1, witness: the fallback mapping holds the statement, Redis is
    down, MySQL answers. *)
Lemma C1_stored_statement_witness :
  let run := query_with_cache (redis_down (healthy two_rows)) a_prompt local_entry in
  count_events is_generate (log_of run) = 0%nat /\
  state_of run = local_entry /\
  result_of run =
    match result_of (execute_sql (redis_down (healthy two_rows)) a_statement local_entry) with
    | Some rows =>
        Some {| sql := a_statement; data := rows; cache_hit := true;
                count := len rows |}
    | None => None
    end.
Proof.
  apply (C1_stored_statement_skips_generator
           (redis_down (healthy two_rows)) local_entry a_prompt a_statement).
  - vm_compute. reflexivity.
  - discriminate.
Defined.

(** C1, counterexample to the claim as stated, on both of its points.
    The cache lookup returns a stored statement for the prompt, yet the
    call does not return it, because the statement is executed within
    the same call and MySQL is down. And the cache lookup returns the
    stored string of an entry that is empty, yet the generator is
    called, and the statement returned is the generated one. *)
Lemma C1_stored_statement_not_returned :
  (stored_sql (mysql_down (redis_down (healthy two_rows))) local_entry a_prompt
     = Some a_statement /\
   result_of (query_with_cache (mysql_down (redis_down (healthy two_rows)))
                a_prompt local_entry) = None) /\
  (let e := redis_down (healthy two_rows) in
   let st := {| mock_cache := {[ a_prompt := [] ]}; redis_db := ∅ |} in
   stored_sql e st a_prompt = Some [] /\
   count_events is_generate (log_of (query_with_cache e a_prompt st)) = 1%nat /\
   sql <$> result_of (query_with_cache e a_prompt st) = Some a_statement /\
   a_statement <> []).
Proof. repeat split; try (vm_compute; reflexivity). discriminate. Qed.

(** C2. When the generator is called for the prompt and raises, the
    call returns [None], neither cache is written (the state is as
    before), the Relational Store is not contacted; and a repeat of the
    prompt, with the cache side answering as before, finds no usable
    entry and calls the generator again. *)
Theorem C2_generator_failure_writes_nothing e st prompt msg :
  EvGenerate prompt ∈ log_of (query_with_cache e prompt st) ->
  get_sql_from_llm e prompt = Raise msg ->
  let run := query_with_cache e prompt st in
  result_of run = None /\
  state_of run = st /\
  count_events is_cache_write (log_of run) = 0%nat /\
  count_events is_db_call (log_of run) = 0%nat /\
  forall e',
    redis_ping e' = redis_ping e -> redis_get_link e' = redis_get_link e ->
    let again := query_with_cache e' prompt (state_of run) in
    truthy (stored_sql e' (state_of run) prompt) = false /\
    count_events is_generate (log_of again) = 1%nat.
Proof.
  intros Hin Hg run. subst run.
  assert (truthy (stored_sql e st prompt) = false) as Hmiss.
  { apply (count_events_pos is_generate) in Hin; [|done].
    rewrite query_with_cache_count in Hin by (by intros []).
    rewrite resolve_sql_generator in Hin.
    by destruct (truthy (stored_sql e st prompt)). }
  destruct (resolve_sql_generator_raises e prompt st msg Hmiss Hg)
    as (Hr & Hst & Hw).
  assert (state_of (query_with_cache e prompt st) = st) as Hst'.
  { by rewrite query_with_cache_state. }
  split; [|split; [|split; [|split]]].
  - by rewrite query_with_cache_result, Hr.
  - done.
  - by rewrite query_with_cache_count by (by intros []).
  - rewrite query_with_cache_unfold. cbv zeta. rewrite Hr.
    unfold log_of at 1. cbn [snd]. apply resolve_sql_no_db.
  - intros e' Hping Hlink again. subst again. rewrite Hst'.
    assert (stored_sql e' st prompt = stored_sql e st prompt) as ->.
    { unfold stored_sql, backend_of. by rewrite Hping, Hlink. }
    split; [done|].
    rewrite query_with_cache_count by (by intros []).
    rewrite resolve_sql_generator.
    assert (stored_sql e' st prompt = stored_sql e st prompt) as ->.
    { unfold stored_sql, backend_of. by rewrite Hping, Hlink. }
    by rewrite Hmiss.
Qed.

(** C2, witness: the scenario of the specification, on a fresh process
    with Redis down. *)
Lemma C2_generator_failure_witness :
  let e := generator_down (redis_down (healthy two_rows)) in
  let run := query_with_cache e a_prompt (fresh_process ∅) in
  result_of run = None /\
  state_of run = fresh_process ∅ /\
  count_events is_cache_write (log_of run) = 0%nat /\
  count_events is_db_call (log_of run) = 0%nat /\
  forall e',
    redis_ping e' = redis_ping e -> redis_get_link e' = redis_get_link e ->
    let again := query_with_cache e' a_prompt (state_of run) in
    truthy (stored_sql e' (state_of run) a_prompt) = false /\
    count_events is_generate (log_of again) = 1%nat.
Proof.
  apply (C2_generator_failure_writes_nothing
           (generator_down (redis_down (healthy two_rows)))
           (fresh_process ∅) a_prompt (py "Request timed out.")).
  - vm_compute. do 4 right. left.
  - reflexivity.
Defined.

(** C3, as the code has it. The backend is not fixed for the process:
    every call of [query_with_cache] probes Redis once and works with
    the backend that this probe selects, and with that one alone: the
    Shared backend when the probe succeeds ([mock_cache] is neither
    accessed nor changed), the Local mapping when it fails (Redis is
    neither read nor written). *)
Theorem C3_backend_chosen_by_each_call e prompt st :
  let run := query_with_cache e prompt st in
  count_events is_probe (log_of run) = 1%nat /\
  match backend_of e with
  | Shared =>
      (1 <= count_events is_shared_access (log_of run))%nat /\
      count_events is_local_access (log_of run) = 0%nat /\
      mock_cache (state_of run) = mock_cache st
  | Local =>
      (1 <= count_events is_local_access (log_of run))%nat /\
      count_events is_shared_access (log_of run) = 0%nat /\
      redis_db (state_of run) = redis_db st
  end.
Proof.
  cbv zeta.
  rewrite !query_with_cache_count by (by intros []).
  rewrite query_with_cache_state.
  apply resolve_sql_backend.
Qed.

(** C3, counterexample to the claim as stated: in a process that finds
    Redis unreachable at start-up and during its first query, the first
    resolution works with the Local mapping; Redis then comes back, and
    the second resolution of the same process works with the Shared
    backend (and, finding nothing there, calls the generator again). *)
Lemma C3_backend_switches_within_a_process :
  let down := redis_down (healthy two_rows) in
  let up := healthy two_rows in
  let first := query_with_cache down a_prompt (fresh_process ∅) in
  let second := query_with_cache up a_prompt (state_of first) in
  (count_events is_local_access (log_of first) = 2%nat /\
   count_events is_shared_access (log_of first) = 0%nat) /\
  (count_events is_local_access (log_of second) = 0%nat /\
   count_events is_shared_access (log_of second) = 2%nat /\
   count_events is_generate (log_of second) = 1%nat) /\
  let process :=
    main down [(down, a_prompt); (up, a_prompt)] (fresh_process ∅) in
  count_events is_probe (log_of process) = 3%nat /\
  count_events is_local_access (log_of process) = 2%nat /\
  count_events is_shared_access (log_of process) = 2%nat.
Proof. vm_compute. repeat split; reflexivity. Qed.

(** C4: the code at the failing input. The connection is opened, the
    statement is rejected when it is executed, and the call returns
    [None] from the handler without ever closing the connection. *)
Theorem C4_connection_left_open_on_failure :
  let e := statements_rejected (healthy two_rows) in
  let run := execute_sql e a_bad_statement (fresh_process ∅) in
  result_of run = None /\
  log_of run =
    [EvDbConnect; EvDbCursor; EvDbExecute a_bad_statement;
     EvPrint (py "❌  SQL 执行失败: You have an error in your SQL syntax")] /\
  count_events is_conn_close (log_of run) = 0%nat.
Proof. vm_compute. repeat split; reflexivity. Qed.

(** On the success path the connection is closed, once. *)
Lemma execute_sql_success_closes e stmt st rows :
  executes e stmt rows ->
  count_events is_conn_close (log_of (execute_sql e stmt st)) = 1%nat.
Proof. intros H. by rewrite (execute_sql_ok e stmt st rows H). Qed.

(** A failure of any step before the close leaves the connection open. *)
Lemma execute_sql_failure_leaves_open e stmt st :
  db_connect e = Ok tt ->
  result_of (execute_sql e stmt st) = None ->
  db_cursor_close e = Ok tt ->
  count_events is_conn_close (log_of (execute_sql e stmt st)) = 0%nat
  \/ exists msg, db_conn_close e = Raise msg.
Proof.
  unfold result_of, log_of. intros Hc. unfold_db. rewrite Hc. cbn.
  answer (db_cursor e); [|by left].
  answer (db_execute e stmt); [|by left].
  answer_with (db_fetchall e stmt); [|by left].
  intros Hres Hcc. rewrite Hcc in *. cbn in *.
  answer (db_conn_close e); [done|]. right. eauto.
Qed.

(** C5, as the code has it. For a prompt that the backend of the call
    has no entry for, if the generator returns a non-empty statement,
    the cache answers (reads and writes of the Shared backend go
    through) and the statement executes, then resolving the prompt twice
    in sequence with the same answers returns the same statement both
    times, first with [cache_hit] unset after one call of the generator,
    then with [cache_hit] set and no call of the generator. *)
Theorem C5_second_resolution_hits e st prompt stmt rows :
  stored_sql e st prompt = None ->
  get_sql_from_llm e prompt = Ok stmt -> stmt <> [] ->
  (backend_of e = Shared ->
   redis_get_link e = Ok tt /\ redis_setex_link e = Ok tt) ->
  executes e stmt rows ->
  let first := query_with_cache e prompt st in
  let second := query_with_cache e prompt (state_of first) in
  result_of first =
    Some {| sql := stmt; data := rows; cache_hit := false;
            count := len rows |} /\
  result_of second =
    Some {| sql := stmt; data := rows; cache_hit := true;
            count := len rows |} /\
  count_events is_generate (log_of first) = 1%nat /\
  count_events is_generate (log_of second) = 0%nat.
Proof.
  intros Hs Hg Hne Hrel Hex first second. subst first second.
  destruct (resolve_sql_miss e prompt st stmt Hs Hg Hrel) as [Hr Hstored].
  rewrite query_with_cache_state.
  destruct (resolve_sql_hit e prompt _ stmt Hstored Hne) as [Hr2 _].
  rewrite !query_with_cache_result, Hr, Hr2.
  rewrite !query_with_cache_count by (by intros []).
  rewrite !resolve_sql_generator, Hs, Hstored.
  rewrite !(execute_sql_ok e stmt _ rows Hex).
  by destruct stmt.
Qed.

(** C5, witness: a fresh process, Redis down, everything else answers. *)
Lemma C5_second_resolution_witness :
  let e := redis_down (healthy two_rows) in
  let first := query_with_cache e a_prompt (fresh_process ∅) in
  let second := query_with_cache e a_prompt (state_of first) in
  result_of first =
    Some {| sql := a_statement; data := two_rows; cache_hit := false;
            count := len two_rows |} /\
  result_of second =
    Some {| sql := a_statement; data := two_rows; cache_hit := true;
            count := len two_rows |} /\
  count_events is_generate (log_of first) = 1%nat /\
  count_events is_generate (log_of second) = 0%nat.
Proof.
  apply (C5_second_resolution_hits
           (redis_down (healthy two_rows)) (fresh_process ∅)
           a_prompt a_statement two_rows).
  - vm_compute. reflexivity.
  - reflexivity.
  - discriminate.
  - vm_compute. discriminate.
  - vm_compute. repeat split; reflexivity.
Defined.

(** C5, counterexample to the claim as stated: Redis answers the probe
    and the reads but refuses writes; the collaborators answer the same
    way in both calls, and the second resolution of the never-seen
    prompt is not a hit: the generator is called again. *)
Lemma C5_second_resolution_misses_when_write_fails :
  let e := redis_read_only (healthy two_rows) in
  let first := query_with_cache e a_prompt (fresh_process ∅) in
  let second := query_with_cache e a_prompt (state_of first) in
  cache_hit <$> result_of first = Some false /\
  cache_hit <$> result_of second = Some false /\
  count_events is_generate (log_of second) = 1%nat.
Proof. vm_compute. repeat split; reflexivity. Qed.

(** [query_with_cache] accesses the caches only in its resolver half. *)
Lemma query_with_cache_cache_events e prompt st ev :
  ev ∈ log_of (query_with_cache e prompt st) ->
  is_shared_access ev = true \/ is_local_access ev = true ->
  ev ∈ log_of (resolve_sql e prompt st).
Proof.
  rewrite query_with_cache_unfold. cbv zeta.
  destruct (result_of (resolve_sql e prompt st)) as [[stmt hit]|];
    unfold log_of at 1; cbn [snd]; [|done].
  intros Hin Hacc. apply elem_of_app in Hin as [Hin|Hin]; [done|].
  apply elem_of_cons in Hin as [->|Hin]; [by destruct Hacc|].
  apply execute_sql_log in Hin as [Hdb|[line ->]].
  - destruct ev, Hacc; done.
  - by destruct Hacc.
Qed.

(** C8, as the code has it. The two backends do not share one key: every
    access to the Shared backend names the key ["cache:" + prompt], and
    every access to the Local mapping names the prompt itself, with no
    prefix. In both the prompt enters verbatim, so two different prompts
    never share a key. *)
Theorem C8_keys_of_the_two_backends e prompt st :
  (forall ev, ev ∈ log_of (query_with_cache e prompt st) ->
     (is_shared_access ev = true ->
      cache_key_of ev = Some (py "cache:" ++ prompt)) /\
     (is_local_access ev = true -> cache_key_of ev = Some prompt)) /\
  (forall other, other <> prompt ->
     py "cache:" ++ other <> py "cache:" ++ prompt).
Proof.
  split.
  - intros ev Hin. split; intros Hacc.
    + apply (resolve_sql_keys e prompt st); [|done].
      apply query_with_cache_cache_events; auto.
    + apply (resolve_sql_keys e prompt st); [|done].
      apply query_with_cache_cache_events; auto.
  - intros other Hne Heq. by apply app_inv_head in Heq.
Qed.

(** C8, counterexample to the claim as stated: with the Local backend
    the statement is stored under the bare prompt; no entry exists under
    the prefixed key, and every cache access of the call names the bare
    prompt. *)
Lemma C8_local_key_has_no_prefix :
  let run :=
    query_with_cache (redis_down (healthy two_rows)) a_prompt
      (fresh_process ∅) in
  mock_cache (state_of run) !! a_prompt = Some a_statement /\
  mock_cache (state_of run) !! (py "cache:" ++ a_prompt) = None /\
  omap cache_key_of (log_of run) = [a_prompt; a_prompt].
Proof. vm_compute. repeat split; reflexivity. Qed.

(** C9. In a call whose probe of the Shared backend succeeds,
    [mock_cache] is neither read nor written and is unchanged after the
    call; the outcome does not depend on what [mock_cache] holds, and a
    result with [cache_hit] set carries the statement stored in Redis. *)
Theorem C9_shared_call_leaves_mock_cache_alone e prompt st :
  redis_ping e = Ok tt ->
  let run := query_with_cache e prompt st in
  count_events is_local_access (log_of run) = 0%nat /\
  mock_cache (state_of run) = mock_cache st /\
  (forall m,
     let run' := query_with_cache e prompt (with_mock_cache (fun _ => m) st) in
     result_of run' = result_of run /\ log_of run' = log_of run /\
     redis_db (state_of run') = redis_db (state_of run) /\
     mock_cache (state_of run') = m) /\
  (forall r, result_of run = Some r -> cache_hit r = true ->
     exists ttl,
       redis_db st !! (py "cache:" ++ prompt) = Some (sql r, ttl)).
Proof.
  intros Hp run. subst run.
  pose proof (resolve_sql_backend e prompt st) as Hb.
  cbv zeta in Hb. unfold backend_of in Hb. rewrite Hp in Hb.
  destruct Hb as (_ & _ & Hcount & Hmock).
  split; [|split; [|split]].
  - by rewrite query_with_cache_count by (by intros []).
  - by rewrite query_with_cache_state.
  - intros m run'. subst run'.
    destruct (resolve_sql_ignores_mock_cache e prompt st m Hp)
      as (Hr & Hl & Hdb & Hm).
    rewrite !query_with_cache_state.
    rewrite !query_with_cache_unfold. cbv zeta. rewrite Hr, Hl.
    destruct (result_of (resolve_sql e prompt st)) as [[stmt hit]|];
      [|done].
    destruct (execute_sql_any_state e stmt
                (with_mock_cache (fun _ => m) st) st) as [-> ->].
    done.
  - intros r Hres Hhit. rewrite query_with_cache_result in Hres.
    destruct (result_of (resolve_sql e prompt st)) as [[stmt hit]|] eqn:Hr;
      [|done].
    destruct (result_of (execute_sql e stmt st)); [|done].
    cbn in Hres. injection Hres as <-. cbn in Hhit. subst hit.
    exact (resolve_sql_shared_hit e prompt st stmt Hp Hr).
Qed.

(** C9, witness: Redis is reachable and empty while the fallback
    mapping still holds a statement for the prompt from an outage. *)
Lemma C9_shared_call_witness :
  let e := healthy two_rows in
  let run := query_with_cache e a_prompt local_entry in
  count_events is_local_access (log_of run) = 0%nat /\
  mock_cache (state_of run) = mock_cache local_entry /\
  (forall m,
     let run' :=
       query_with_cache e a_prompt (with_mock_cache (fun _ => m) local_entry) in
     result_of run' = result_of run /\ log_of run' = log_of run /\
     redis_db (state_of run') = redis_db (state_of run) /\
     mock_cache (state_of run') = m) /\
  (forall r, result_of run = Some r -> cache_hit r = true ->
     exists ttl,
       redis_db local_entry !! (py "cache:" ++ a_prompt) = Some (sql r, ttl)).
Proof.
  apply (C9_shared_call_leaves_mock_cache_alone
           (healthy two_rows) a_prompt local_entry).
  reflexivity.
Defined.

(** ** The table printer *)

Lemma foldl_max_ge (l : list Z) (a : Z) :
  a <= foldl Z.max a l /\ forall x, x ∈ l -> x <= foldl Z.max a l.
Proof.
  revert a. induction l as [|y l IH]; intros a; cbn.
  - split; [lia|]. intros x Hx. by apply elem_of_nil in Hx.
  - destruct (IH (Z.max a y)) as [Ha Hl]. split; [lia|].
    intros x Hx. apply elem_of_cons in Hx as [->|Hx]; [lia|auto].
Qed.

Lemma foldl_max_in (l : list Z) (a : Z) :
  foldl Z.max a l = a \/ foldl Z.max a l ∈ l.
Proof.
  revert a. induction l as [|y l IH]; intros a; cbn; [by left|].
  destruct (IH (Z.max a y)) as [H|H].
  - rewrite H. destruct (Z.max_spec a y) as [[_ ->]|[_ ->]];
      [right; left|by left].
  - right. by right.
Qed.

(** [max(l)] bounds every entry of [l]. *)
Lemma py_max_ge (l : list Z) (x : Z) : x ∈ l -> x <= py_max l.
Proof.
  destruct l as [|y l]; [intros H; by apply elem_of_nil in H|].
  cbn. destruct (foldl_max_ge l y) as [Hy Hl].
  intros H. apply elem_of_cons in H as [->|H]; auto.
Qed.

(** [max(l)] is an entry of [l]. *)
Lemma py_max_in (l : list Z) : l <> [] -> py_max l ∈ l.
Proof.
  destruct l as [|y l]; [done|]. intros _. cbn.
  destruct (foldl_max_in l y) as [->|H]; [left|by right].
Qed.

(** After the loop, [col_widths] maps each column to its width. *)
Lemma compute_col_widths_fold (data : list row) (cols : list pystr)
    (m : gmap pystr Z) (col : pystr) :
  foldl (fun widths c => <[c := col_width data c]> widths) m cols !! col
  = if decide (col ∈ cols) then Some (col_width data col) else m !! col.
Proof.
  revert m. induction cols as [|c cols IH]; intros m; cbn.
  - rewrite decide_False; [done|]. apply not_elem_of_nil.
  - rewrite IH. destruct (decide (col ∈ cols)) as [Hin|Hnin].
    + rewrite decide_True; [done|]. by right.
    + destruct (decide (c = col)) as [->|Hne].
      * rewrite decide_True by left. apply lookup_insert_eq.
      * rewrite decide_False.
        { by apply lookup_insert_ne. }
        intros Hin. apply elem_of_cons in Hin as [->|Hin]; done.
Qed.

Lemma width_of_column (data : list row) (columns : list pystr) (col : pystr) :
  col ∈ columns ->
  width_of (compute_col_widths columns data) col = col_width data col.
Proof.
  intros Hin. unfold width_of, compute_col_widths.
  rewrite compute_col_widths_fold. by rewrite decide_True.
Qed.

(** The width of a column leaves room for each of its values. *)
Lemma col_width_fits (data : list row) (col : pystr) (r : row) :
  r ∈ data ->
  len (str (row_get r col (VStr []))) <= col_width data col - 2.
Proof.
  intros Hin. unfold col_width.
  assert (len (str (row_get r col (VStr [])))
          <= py_max (map (fun r => len (str (row_get r col (VStr [])))) data)).
  { apply py_max_ge. apply list_elem_of_fmap. by exists r. }
  lia.
Qed.

Lemma col_width_nonneg (data : list row) (col : pystr) :
  0 <= col_width data col - 2.
Proof. unfold col_width, len. lia. Qed.

(** A slice that is at least as long as the string keeps all of it. *)
Lemma slice_to_all (n : Z) (s : pystr) : len s <= n -> slice_to n s = s.
Proof.
  unfold slice_to, len. intros H.
  destruct (0 <=? n) eqn:Hn; [|lia].
  apply take_ge. lia.
Qed.

Lemma slice_to_take (n : Z) (s : pystr) :
  0 <= n -> slice_to n s = take (Z.to_nat n) s.
Proof.
  unfold slice_to. intros H. destruct (0 <=? n) eqn:Hn; [done|lia].
Qed.

(** The loop that builds a line appends one cell per column. *)
Lemma foldl_cells (cell : pystr -> pystr) (cols : list pystr) (acc : pystr) :
  foldl (fun line col => line ++ cell col) acc cols
  = acc ++ concat (map cell cols).
Proof.
  revert acc. induction cols as [|c cols IH]; intros acc; cbn.
  - by rewrite app_nil_r.
  - by rewrite IH, app_assoc.
Qed.

Lemma data_line_cells (columns : list pystr) (col_widths : gmap pystr Z)
    (r : row) :
  data_line columns col_widths r
  = py "|" ++
    concat (map (fun col =>
                   py " " ++
                   format_left (width_of col_widths col - 2)
                     (slice_to (width_of col_widths col - 2)
                        (str (row_get r col (VStr []))))
                   ++ py " |") columns).
Proof. unfold data_line. by rewrite <- foldl_cells. Qed.

Lemma concat_map_ext {A} (f g : A -> pystr) (l : list A) :
  (forall x, x ∈ l -> f x = g x) -> concat (map f l) = concat (map g l).
Proof.
  induction l as [|x l IH]; intros H; cbn; [done|].
  rewrite (H x) by left. rewrite IH; [done|].
  intros y Hy. apply H. by right.
Qed.

(** What [for_each] with a printing body logs. *)
Lemma for_each_print {A} (f : A -> pystr) (l : list A) (st : State) :
  for_each l (fun x => print (f x)) st = (tt, st, map (fun x => EvPrint (f x)) l).
Proof.
  induction l as [|x l IH]; [done|].
  cbn. unfold_monad. unfold mbind, M_bind in IH. cbn. by rewrite IH.
Qed.

Lemma printed_prints {A} (f : A -> pystr) (l : list A) :
  printed (map (fun x => EvPrint (f x)) l) = map f l.
Proof.
  unfold printed. induction l as [|x l IH]; cbn; [done|].
  by rewrite IH.
Qed.

(** What [print_results] prints for a result with rows: a rule, the
    header, a rule, one line per row, a rule and the summary. *)
Lemma print_results_table results first rest st :
  data results = first :: rest ->
  let columns := keys first in
  let col_widths := compute_col_widths columns (data results) in
  let rule := repeat_char equals_sign (total_width_of col_widths columns) in
  printed (log_of (print_results (Some results) st))
  = [rule; header_line columns col_widths; rule]
    ++ map (data_line columns col_widths) (data results)
    ++ [rule; summary_line results].
Proof.
  intros Hd. cbv zeta. unfold print_results. rewrite Hd.
  pose proof (fun f => for_each_print (A := row) f (first :: rest)) as Hloop.
  unfold log_of. unfold_monad. cbn [fst snd]. cbv zeta.
  rewrite Hloop. cbn [fst snd app].
  unfold printed. cbn [omap list_omap]. do 3 f_equal.
  rewrite omap_app. cbn [omap list_omap]. f_equal.
  apply (printed_prints (A := row)).
Qed.

(** C7. For a result with rows, the width of a column is the larger of
    the length of its name and of the longest stringified value of the
    column over all rows, plus 2; a data line shows, for each column,
    the first [width - 2] characters of the value, padded with spaces
    and followed by nothing else; and the two rows of the example are
    printed as a header naming [id] and [name], exactly two data lines
    and a summary line that counts 2 records. *)
Theorem C7_widths_truncation_and_example results first rest :
  data results = first :: rest ->
  let columns := keys first in
  let col_widths := compute_col_widths columns (data results) in
  let rule := repeat_char equals_sign (total_width_of col_widths columns) in
  (forall col, col ∈ columns ->
     exists longest,
       (forall r, r ∈ data results ->
          len (str (row_get r col (VStr []))) <= longest) /\
       (exists r, r ∈ data results /\
          len (str (row_get r col (VStr []))) = longest) /\
       width_of col_widths col = Z.max (len col) longest + 2) /\
  (forall r,
     data_line columns col_widths r =
     py "|" ++
     concat (map (fun col =>
                    py " " ++
                    format_left (width_of col_widths col - 2)
                      (take (Z.to_nat (width_of col_widths col - 2))
                         (str (row_get r col (VStr []))))
                    ++ py " |") columns)) /\
  (forall st,
     printed (log_of (print_results (Some results) st))
     = [rule; header_line columns col_widths; rule]
       ++ map (data_line columns col_widths) (data results)
       ++ [rule; summary_line results]) /\
  (forall stmt hit st,
     printed (log_of (print_results
                        (Some (result_dict stmt hit two_rows)) st))
     = [py "==============";
        py "| id | name  |";
        py "==============";
        py "| 1  | Alpha |";
        py "| 2  | B     |";
        py "==============";
        py "📊  共 2 条记录 " ++ (if hit then py "(来自缓存)" else [])]).
Proof.
  intros Hd columns col_widths rule.
  split; [|split; [|split]].
  - intros col Hcol.
    exists (py_max (map (fun r => len (str (row_get r col (VStr []))))
                        (data results))).
    split; [|split].
    + intros r Hr. apply py_max_ge. apply list_elem_of_fmap. by exists r.
    + assert (map (fun r => len (str (row_get r col (VStr []))))
                  (data results) <> []) as Hne by (by rewrite Hd).
      apply py_max_in, list_elem_of_fmap in Hne as (r & Heq & Hr).
      exists r. by split.
    + subst col_widths. by rewrite width_of_column.
  - intros r. rewrite data_line_cells. f_equal.
    apply concat_map_ext. intros col Hcol.
    rewrite slice_to_take; [done|].
    subst col_widths. rewrite width_of_column by done.
    apply col_width_nonneg.
  - intros st. by apply (print_results_table results first rest).
  - intros stmt hit st. destruct hit; vm_compute; reflexivity.
Qed.

(** C7, witness: the two rows of the example. *)
Lemma C7_widths_witness :
  let results := result_dict a_statement false two_rows in
  let columns := [py "id"; py "name"] in
  let col_widths := compute_col_widths columns (data results) in
  let rule := repeat_char equals_sign (total_width_of col_widths columns) in
  (forall col, col ∈ columns ->
     exists longest,
       (forall r, r ∈ data results ->
          len (str (row_get r col (VStr []))) <= longest) /\
       (exists r, r ∈ data results /\
          len (str (row_get r col (VStr []))) = longest) /\
       width_of col_widths col = Z.max (len col) longest + 2) /\
  (forall r,
     data_line columns col_widths r =
     py "|" ++
     concat (map (fun col =>
                    py " " ++
                    format_left (width_of col_widths col - 2)
                      (take (Z.to_nat (width_of col_widths col - 2))
                         (str (row_get r col (VStr []))))
                    ++ py " |") columns)) /\
  (forall st,
     printed (log_of (print_results (Some results) st))
     = [rule; header_line columns col_widths; rule]
       ++ map (data_line columns col_widths) (data results)
       ++ [rule; summary_line results]) /\
  (forall stmt hit st,
     printed (log_of (print_results
                        (Some (result_dict stmt hit two_rows)) st))
     = [py "==============";
        py "| id | name  |";
        py "==============";
        py "| 1  | Alpha |";
        py "| 2  | B     |";
        py "==============";
        py "📊  共 2 条记录 " ++ (if hit then py "(来自缓存)" else [])]).
Proof.
  apply (C7_widths_truncation_and_example
           (result_dict a_statement false two_rows)
           [(py "id", VStr (py "1")); (py "name", VStr (py "Alpha"))]
           [[(py "id", VStr (py "2")); (py "name", VStr (py "B"))]]).
  reflexivity.
Defined.

(** C10. For a result with rows, the slice applied to a value before it
    is printed never drops a character: the width of the column is at
    least 2 more than the length of every value in it, so the first
    [width - 2] characters are the whole value, and each data line shows
    every value in full. What [print_results] prints is therefore, between
    the rules, the header and the summary, one line per row in which
    every column holds the whole stringified value followed by the
    spaces that fill the column. *)
Theorem C10_truncation_removes_nothing results first rest :
  data results = first :: rest ->
  let columns := keys first in
  let col_widths := compute_col_widths columns (data results) in
  let rule := repeat_char equals_sign (total_width_of col_widths columns) in
  (forall r col, r ∈ data results -> col ∈ columns ->
     len (str (row_get r col (VStr []))) + 2 <= width_of col_widths col /\
     slice_to (width_of col_widths col - 2) (str (row_get r col (VStr [])))
     = str (row_get r col (VStr []))) /\
  (forall r, r ∈ data results ->
     data_line columns col_widths r =
     py "|" ++
     concat (map (fun col =>
                    py " " ++
                    format_left (width_of col_widths col - 2)
                      (str (row_get r col (VStr [])))
                    ++ py " |") columns)) /\
  (forall st,
     printed (log_of (print_results (Some results) st))
     = [rule; header_line columns col_widths; rule]
       ++ map (fun r =>
                 py "|" ++
                 concat (map (fun col =>
                                py " " ++
                                str (row_get r col (VStr [])) ++
                                repeat_char space
                                  (width_of col_widths col - 2
                                   - len (str (row_get r col (VStr [])))) ++
                                py " |") columns))
              (data results)
       ++ [rule; summary_line results]).
Proof.
  intros Hd columns col_widths rule.
  assert (forall r col, r ∈ data results -> col ∈ columns ->
            len (str (row_get r col (VStr []))) <= width_of col_widths col - 2)
    as Hfit.
  { intros r col Hr Hcol. subst col_widths.
    rewrite width_of_column by done. by apply col_width_fits. }
  assert (forall r, r ∈ data results ->
            data_line columns col_widths r =
            py "|" ++
            concat (map (fun col =>
                           py " " ++
                           format_left (width_of col_widths col - 2)
                             (str (row_get r col (VStr [])))
                           ++ py " |") columns)) as Hline.
  { intros r Hr. rewrite data_line_cells. f_equal.
    apply concat_map_ext. intros col Hcol.
    rewrite slice_to_all; [done|]. by apply Hfit. }
  split; [|split].
  - intros r col Hr Hcol. specialize (Hfit r col Hr Hcol).
    split; [lia|]. by apply slice_to_all.
  - exact Hline.
  - intros st. rewrite (print_results_table results first rest st Hd).
    subst rule col_widths columns. cbv zeta. f_equal. apply (f_equal (fun l => l ++ _)).
    apply map_ext_in. intros r Hr.
    apply list_elem_of_In in Hr. rewrite (Hline r Hr). f_equal.
    apply concat_map_ext. intros col _. unfold format_left.
    by rewrite <- !app_assoc.
Qed.

(** C10, witness: the two rows of the example. *)
Lemma C10_truncation_witness :
  let results := result_dict a_statement false two_rows in
  let columns := [py "id"; py "name"] in
  let col_widths := compute_col_widths columns (data results) in
  let rule := repeat_char equals_sign (total_width_of col_widths columns) in
  (forall r col, r ∈ data results -> col ∈ columns ->
     len (str (row_get r col (VStr []))) + 2 <= width_of col_widths col /\
     slice_to (width_of col_widths col - 2) (str (row_get r col (VStr [])))
     = str (row_get r col (VStr []))) /\
  (forall r, r ∈ data results ->
     data_line columns col_widths r =
     py "|" ++
     concat (map (fun col =>
                    py " " ++
                    format_left (width_of col_widths col - 2)
                      (str (row_get r col (VStr [])))
                    ++ py " |") columns)) /\
  (forall st,
     printed (log_of (print_results (Some results) st))
     = [rule; header_line columns col_widths; rule]
       ++ map (fun r =>
                 py "|" ++
                 concat (map (fun col =>
                                py " " ++
                                str (row_get r col (VStr [])) ++
                                repeat_char space
                                  (width_of col_widths col - 2
                                   - len (str (row_get r col (VStr [])))) ++
                                py " |") columns))
              (data results)
       ++ [rule; summary_line results]).
Proof.
  apply (C10_truncation_removes_nothing
           (result_dict a_statement false two_rows)
           [(py "id", VStr (py "1")); (py "name", VStr (py "Alpha"))]
           [[(py "id", VStr (py "2")); (py "name", VStr (py "B"))]]).
  reflexivity.
Defined.

(** ** The empty result *)

(** The statement that a call executes is the one it resolved. *)
Lemma query_with_cache_executed e prompt st stmt :
  EvDbExecute stmt ∈ log_of (query_with_cache e prompt st) ->
  exists hit, result_of (resolve_sql e prompt st) = Some (stmt, hit).
Proof.
  rewrite query_with_cache_unfold. cbv zeta.
  pose proof (resolve_sql_no_db e prompt st) as Hnodb.
  destruct (result_of (resolve_sql e prompt st)) as [[stmt' hit]|];
    unfold log_of at 1; cbn [snd]; intros Hin.
  - apply elem_of_app in Hin as [Hin|Hin].
    { by apply (count_events_pos is_db_call) in Hin. }
    apply elem_of_cons in Hin as [?|Hin]; [done|].
    apply execute_sql_statement in Hin as ->. by exists hit.
  - by apply (count_events_pos is_db_call) in Hin.
Qed.

Lemma printed_app (l1 l2 : list event) :
  printed (l1 ++ l2) = printed l1 ++ printed l2.
Proof. apply omap_app. Qed.

(** What a turn of the loop logs: the two lines that announce the
    query, the call, then the rendering of its result. *)
Lemma ordinary_query_log e user_input st :
  let run := query_with_cache e user_input st in
  log_of (ordinary_query e user_input st)
  = EvPrint (newline :: py "🔎  正在查询: " ++ user_input)
    :: EvPrint (repeat_char hyphen 60)
    :: log_of run
    ++ match result_of run with
       | Some r => log_of (print_results (Some r) (state_of run))
       | None => [EvPrint (py "❌  查询失败")]
       end.
Proof.
  cbv zeta. unfold ordinary_query, log_of, result_of, state_of.
  unfold mbind, M_bind, print, emit. cbn [fst snd app].
  destruct (query_with_cache e user_input st) as [[[r|] st1] l1];
    cbn [fst snd].
  - by destruct (print_results (Some r) st1) as [[[] st2] l2].
  - done.
Qed.

(** The statement that a call resolves, read off what the call is
    given: the stored statement when the cache lookup returns a usable
    one, the answer of the generator otherwise. *)
Lemma resolve_sql_statement e prompt st stmt :
  (if truthy (stored_sql e st prompt)
   then stored_sql e st prompt = Some stmt
   else get_sql_from_llm e prompt = Ok stmt) ->
  exists hit, result_of (resolve_sql e prompt st) = Some (stmt, hit).
Proof.
  unfold result_of, stored_sql, backend_of.
  cache_cases e prompt st; intros Hs; generator_cases e prompt;
    simplify_eq; eauto.
Qed.

(** C6. A statement that runs to the end and fetches no rows makes
    [execute_sql] return the empty list, not [None]. A call of
    [query_with_cache] that resolves to it (the cache lookup returns it,
    or the lookup returns nothing usable and the generator answers with
    it) returns a result with [data = []] and [count = 0], and the turn
    of the interactive loop ends on the empty-result message; the same
    holds of any call that is seen to execute the statement.
    [print_results] renders such a result as the empty-result message
    alone, which is neither of the two failure messages. *)
Theorem C6_no_rows_is_not_a_failure e stmt :
  executes e stmt [] ->
  (forall st, result_of (execute_sql e stmt st) = Some []) /\
  (forall prompt st,
     (if truthy (stored_sql e st prompt)
      then stored_sql e st prompt = Some stmt
      else get_sql_from_llm e prompt = Ok stmt) ->
     exists hit,
       result_of (query_with_cache e prompt st)
       = Some {| sql := stmt; data := []; cache_hit := hit; count := 0 |} /\
       last (printed (log_of (ordinary_query e prompt st)))
       = Some (py "📭  查询结果为空")) /\
  (forall prompt st,
     EvDbExecute stmt ∈ log_of (query_with_cache e prompt st) ->
     exists hit,
       result_of (query_with_cache e prompt st)
       = Some {| sql := stmt; data := []; cache_hit := hit; count := 0 |} /\
       last (printed (log_of (ordinary_query e prompt st)))
       = Some (py "📭  查询结果为空")) /\
  (forall hit st,
     printed (log_of (print_results
        (Some {| sql := stmt; data := []; cache_hit := hit; count := 0 |}) st))
     = [py "📭  查询结果为空"]) /\
  (forall st,
     printed (log_of (print_results None st))
     = [py "⚠️  查询失败，无数据返回"]) /\
  py "📭  查询结果为空" <> py "⚠️  查询失败，无数据返回" /\
  py "📭  查询结果为空" <> py "❌  查询失败".
Proof.
  intros Hex.
  assert (forall prompt st hit,
            result_of (resolve_sql e prompt st) = Some (stmt, hit) ->
            result_of (query_with_cache e prompt st)
            = Some {| sql := stmt; data := []; cache_hit := hit; count := 0 |} /\
            last (printed (log_of (ordinary_query e prompt st)))
            = Some (py "📭  查询结果为空")) as Hrun.
  { intros prompt st hit Hr.
    assert (result_of (query_with_cache e prompt st)
            = Some {| sql := stmt; data := []; cache_hit := hit; count := 0 |})
      as Hres.
    { rewrite query_with_cache_result, Hr.
      by rewrite (execute_sql_ok e stmt st [] Hex). }
    split; [done|].
    rewrite ordinary_query_log. cbv zeta. rewrite Hres.
    change (?a :: ?b :: ?l ++ ?m) with ((a :: b :: l) ++ m).
    rewrite printed_app. apply last_snoc. }
  split; [|split; [|split; [|split; [|split; [|split]]]]].
  - intros st. by rewrite (execute_sql_ok e stmt st [] Hex).
  - intros prompt st Hin.
    destruct (resolve_sql_statement e prompt st stmt Hin) as [hit Hr].
    exists hit. by apply Hrun.
  - intros prompt st Hin.
    destruct (query_with_cache_executed e prompt st stmt Hin) as [hit Hr].
    exists hit. by apply Hrun.
  - done.
  - done.
  - vm_compute. discriminate.
  - vm_compute. discriminate.
Qed.

(** C6, witness: a healthy environment whose table is empty, and the
    first query of a process. The statement comes from the generator,
    is executed and fetches nothing: the call returns a result with no
    rows and a count of 0, which is printed as the empty-result
    message. *)
Lemma C6_no_rows_witness :
  let e := healthy [] in
  let st := fresh_process ∅ in
  executes e a_statement [] /\
  result_of (execute_sql e a_statement st) = Some [] /\
  result_of (query_with_cache e a_prompt st)
  = Some {| sql := a_statement; data := []; cache_hit := false; count := 0 |} /\
  last (printed (log_of (ordinary_query e a_prompt st)))
  = Some (py "📭  查询结果为空") /\
  printed (log_of (print_results (result_of (query_with_cache e a_prompt st))
                     (state_of (query_with_cache e a_prompt st))))
  = [py "📭  查询结果为空"].
Proof.
  assert (executes (healthy []) a_statement []) as Hex
    by (vm_compute; repeat split; reflexivity).
  destruct (C6_no_rows_is_not_a_failure (healthy []) a_statement Hex)
    as (Hexec & Hrun & _ & Hshow & _).
  destruct (Hrun a_prompt (fresh_process ∅)) as (hit & Hres & Hlast);
    [vm_compute; reflexivity|].
  assert (hit = false) as ->.
  { assert (cache_hit <$> result_of (query_with_cache (healthy []) a_prompt
                                       (fresh_process ∅)) = Some false)
      as Hhit by (vm_compute; reflexivity).
    rewrite Hres in Hhit. by injection Hhit. }
  cbv zeta. split; [exact Hex|]. split; [apply Hexec|].
  split; [exact Hres|]. split; [exact Hlast|].
  rewrite Hres. apply Hshow.
Defined.

(** ** Concrete runs *)

Example py_ascii : py "id" = [105; 100]%N.
Proof. reflexivity. Qed.

Example py_cjk : py "共" = [20849]%N.
Proof. reflexivity. Qed.

Example py_emoji : py "📊" = [128202]%N.
Proof. reflexivity. Qed.

Example str_of_int_ex :
  str_of_int 0 = py "0" /\ str_of_int 42 = py "42" /\ str_of_int (-7) = py "-7".
Proof. repeat split; reflexivity. Qed.

Example format_center_ex : format_center 4 (py "a") = py " a  ".
Proof. reflexivity. Qed.

Example format_left_ex : format_left 5 (py "B") = py "B    ".
Proof. reflexivity. Qed.

(** A first query on a fresh process without Redis: what is logged. *)
Example first_query_log :
  log_of (query_with_cache (redis_down (healthy [])) a_prompt (fresh_process ∅))
  = [EvRedisPing;
     EvPrint (py "⚠️  Redis 未连接: Connection refused");
     EvMockContains a_prompt;
     EvPrint (py "🤖  [AI 生成 SQL...]");
     EvGenerate a_prompt;
     EvPrint (py "📄  [生成 SQL] SELECT * FROM ai_projects");
     EvMockWrite a_prompt a_statement;
     EvPrint (py "💾  [已缓存到内存]");
     EvPrint (py "🔍  [执行查询...]");
     EvDbConnect; EvDbCursor; EvDbExecute a_statement; EvDbFetchall;
     EvDbCursorClose; EvDbConnClose].
Proof. vm_compute. reflexivity. Qed.

(** The same query with an empty table, as the loop shows it. *)
Example empty_table_turn :
  printed (log_of (ordinary_query (healthy []) a_prompt (fresh_process ∅)))
  = [newline :: py "🔎  正在查询: query all projects";
     py "------------------------------------------------------------";
     py "🤖  [AI 生成 SQL...]";
     py "📄  [生成 SQL] SELECT * FROM ai_projects";
     py "💾  [已缓存到 Redis]";
     py "🔍  [执行查询...]";
     py "📭  查询结果为空"].
Proof. vm_compute. reflexivity. Qed.

(** An empty string stored in the fallback mapping counts as present
    ([cache_hit] is set) and as unusable (the generator is called). *)
Example empty_stored_statement :
  let st := {| mock_cache := {[ a_prompt := [] ]}; redis_db := ∅ |} in
  let run := query_with_cache (redis_down (healthy two_rows)) a_prompt st in
  count_events is_generate (log_of run) = 1%nat /\
  result_of run = Some (result_dict a_statement true two_rows).
Proof. vm_compute. split; reflexivity. Qed.

(** * Further properties of the code *)

(** ** The executor *)

(** [execute_sql] returns rows exactly when the connection and every
    step on it succeed, and then the rows are those fetched; any failure
    gives [None] and exactly one printed line, which tells a refused
    connection from a failed statement; a success prints nothing. *)
Theorem execute_sql_outcome e stmt st :
  let run := execute_sql e stmt st in
  (forall rows, result_of run = Some rows <-> executes e stmt rows) /\
  match result_of run with
  | Some _ => printed (log_of run) = []
  | None =>
      exists msg,
        (db_connect e = Raise msg /\
         printed (log_of run) = [py "❌  MySQL 连接失败: " ++ msg]) \/
        (db_connect e = Ok tt /\
         printed (log_of run) = [py "❌  SQL 执行失败: " ++ msg])
  end.
Proof.
  cbv zeta. split.
  - intros rows. split; [apply execute_sql_some|].
    intros H. by rewrite (execute_sql_ok e stmt st rows H).
  - unfold result_of, log_of. unfold_db. cbn.
    answer (db_connect e); [|eauto].
    answer (db_cursor e); [|eauto].
    answer (db_execute e stmt); [|eauto].
    answer_with (db_fetchall e stmt); [|eauto].
    answer (db_cursor_close e); [|eauto].
    answer (db_conn_close e); eauto.
Qed.

(** [execute_sql] asks for one connection, sends the statement at most
    once, leaves both caches as they are, and logs nothing but calls to
    the Relational Store and printed lines: it never probes Redis, reads
    or writes a cache, or calls the generator. *)
Theorem execute_sql_only_uses_the_store e stmt st :
  let run := execute_sql e stmt st in
  state_of run = st /\
  count_events is_db_connect (log_of run) = 1%nat /\
  (count_events is_db_execute (log_of run) <= 1)%nat /\
  (forall ev, ev ∈ log_of run -> is_db_call ev = true \/ is_print ev = true) /\
  (forall stmt', EvDbExecute stmt' ∈ log_of run -> stmt' = stmt).
Proof.
  cbv zeta. split; [apply execute_sql_frame|].
  split; [|split; [|split]].
  - unfold log_of. unfold_db. cbn.
    answer (db_connect e); [|done].
    answer (db_cursor e); [|done].
    answer (db_execute e stmt); [|done].
    answer_with (db_fetchall e stmt); [|done].
    answer (db_cursor_close e); [|done].
    answer (db_conn_close e); done.
  - unfold log_of. unfold_db. cbn.
    answer (db_connect e); [|cbn; lia].
    answer (db_cursor e); [|cbn; lia].
    answer (db_execute e stmt); [|cbn; lia].
    answer_with (db_fetchall e stmt); [|cbn; lia].
    answer (db_cursor_close e); [|cbn; lia].
    answer (db_conn_close e); cbn; lia.
  - intros ev Hin. apply execute_sql_log in Hin as [H|[line ->]]; auto.
  - apply execute_sql_statement.
Qed.

(** [conn.close()] is called exactly when the connection was opened and
    the cursor, the statement, the fetch and [cursor.close()] all
    succeeded; after any earlier failure it is never called. *)
Theorem execute_sql_close_exactly_after_success e stmt st :
  count_events is_conn_close (log_of (execute_sql e stmt st))
  = if reaches_close e stmt then 1%nat else 0%nat.
Proof.
  unfold log_of, reaches_close. unfold_db. cbn.
  answer (db_connect e); [|done].
  answer (db_cursor e); [|done].
  answer (db_execute e stmt); [|done].
  answer_with (db_fetchall e stmt); [|done].
  answer (db_cursor_close e); [|done].
  answer (db_conn_close e); done.
Qed.

(** ** The resolver and [query_with_cache] *)

(** What the resolver returns and the state it leaves, by cases. *)
Lemma resolve_sql_spec e prompt st :
  let r := resolve_sql e prompt st in
  if truthy (stored_sql e st prompt)
  then result_of r = (fun stmt => (stmt, true)) <$> stored_sql e st prompt /\
       state_of r = st
  else match get_sql_from_llm e prompt with
       | Raise _ => result_of r = None /\ state_of r = st
       | Ok stmt =>
           result_of r = Some (stmt, local_entry_present e st prompt) /\
           state_of r = after_store e prompt stmt st
       end.
Proof.
  unfold result_of, state_of, stored_sql, after_store, local_entry_present,
    backend_of.
  cache_cases e prompt st; generator_cases e prompt; done.
Qed.

Lemma resolve_sql_cache_writes e prompt st :
  count_events is_cache_write (log_of (resolve_sql e prompt st))
  = if truthy (stored_sql e st prompt) then 0%nat
    else if is_ok (get_sql_from_llm e prompt) then 1%nat else 0%nat.
Proof.
  unfold log_of, stored_sql, backend_of.
  cache_cases e prompt st; generator_cases e prompt; done.
Qed.

(** Every call probes Redis once. The generator is called at most
    once, exactly when the cache lookup of the call returns no non-empty
    statement for the prompt ([stored_sql]: no entry, an empty one, or
    a Redis read that raises); a cache write is attempted at most once,
    exactly when that call of the generator returned. *)
Theorem query_with_cache_side_effects e prompt st :
  let run := query_with_cache e prompt st in
  count_events is_probe (log_of run) = 1%nat /\
  count_events is_generate (log_of run)
  = (if truthy (stored_sql e st prompt) then 0%nat else 1%nat) /\
  count_events is_cache_write (log_of run)
  = (if truthy (stored_sql e st prompt) then 0%nat
     else if is_ok (get_sql_from_llm e prompt) then 1%nat else 0%nat).
Proof.
  cbv zeta. rewrite !query_with_cache_count by (by intros []).
  split; [apply resolve_sql_backend|].
  split; [apply resolve_sql_generator|apply resolve_sql_cache_writes].
Qed.

(** The state after a call: unchanged on a hit and when the generator
    raises; otherwise the generated statement is stored in the backend
    in use, under the prompt in [mock_cache], under the prefixed key
    with a time to live of 3600 in Redis (nothing if Redis refuses the
    write). The execution that follows does not change it. *)
Theorem query_with_cache_final_state e prompt st :
  state_of (query_with_cache e prompt st)
  = if truthy (stored_sql e st prompt) then st
    else match get_sql_from_llm e prompt with
         | Raise _ => st
         | Ok stmt => after_store e prompt stmt st
         end.
Proof.
  rewrite query_with_cache_state.
  pose proof (resolve_sql_spec e prompt st) as H. cbv zeta in H.
  destruct (truthy (stored_sql e st prompt)); [apply H|].
  destruct (get_sql_from_llm e prompt); apply H.
Qed.

(** A call changes no entry other than the one of its prompt, and
    removes none: every key that a cache held before is still there. *)
Theorem query_with_cache_keeps_other_entries e prompt st :
  let run := query_with_cache e prompt st in
  (forall k, k <> prompt ->
     mock_cache (state_of run) !! k = mock_cache st !! k) /\
  (forall k, k <> py "cache:" ++ prompt ->
     redis_db (state_of run) !! k = redis_db st !! k) /\
  (forall k, is_Some (mock_cache st !! k) ->
     is_Some (mock_cache (state_of run) !! k)) /\
  (forall k, is_Some (redis_db st !! k) ->
     is_Some (redis_db (state_of run) !! k)).
Proof.
  cbv zeta. rewrite query_with_cache_state.
  pose proof (resolve_sql_spec e prompt st) as Hspec. cbv zeta in Hspec.
  destruct (truthy (stored_sql e st prompt));
    [destruct Hspec as [_ ->]; done|].
  destruct (get_sql_from_llm e prompt) as [stmt|];
    destruct Hspec as [_ ->]; [|done].
  unfold after_store.
  destruct (backend_of e); [destruct (is_ok (redis_setex_link e))|];
    cbn; repeat split; try done.
  - intros k Hk. by rewrite lookup_insert_ne.
  - intros k Hk. destruct (decide (py "cache:" ++ prompt = k)) as [<-|Hne].
    + rewrite lookup_insert_eq. eauto.
    + by rewrite lookup_insert_ne.
  - intros k Hk. by rewrite lookup_insert_ne.
  - intros k Hk. destruct (decide (prompt = k)) as [<-|Hne].
    + rewrite lookup_insert_eq. eauto.
    + by rewrite lookup_insert_ne.
Qed.

(** The warnings that the resolver prints about Redis. *)
Lemma resolve_sql_warnings e prompt st :
  (forall msg, redis_ping e = Ok tt -> redis_get_link e = Raise msg ->
     EvPrint (py "⚠️  Redis 读取失败: " ++ msg) ∈ log_of (resolve_sql e prompt st)) /\
  (forall msg stmt, redis_ping e = Ok tt ->
     truthy (stored_sql e st prompt) = false ->
     get_sql_from_llm e prompt = Ok stmt ->
     redis_setex_link e = Raise msg ->
     EvPrint (py "⚠️  Redis 写入失败: " ++ msg) ∈ log_of (resolve_sql e prompt st)).
Proof.
  unfold log_of, stored_sql, backend_of. split.
  - intros msg Hp Hg. unfold_cache. rewrite Hp; cbn. rewrite Hg; cbn.
    generator_cases e prompt; set_solver.
  - intros msg stmt Hp Hs Hg Hw.
    unfold_cache. rewrite Hp in *; cbn in *.
    answer (redis_get_link e);
      [destruct (redis_db st !! (py "cache:" ++ prompt))
         as [[[|? ?] ?]|] eqn:Hdb; cbn in *|];
      try done; rewrite Hg; cbn; rewrite Hw; cbn; set_solver.
Qed.

Lemma query_with_cache_log_includes e prompt st ev :
  ev ∈ log_of (resolve_sql e prompt st) ->
  ev ∈ log_of (query_with_cache e prompt st).
Proof.
  rewrite query_with_cache_unfold. cbv zeta.
  destruct (result_of (resolve_sql e prompt st)) as [[stmt hit]|];
    unfold log_of at 2; cbn [snd]; [|done].
  intros H. apply elem_of_app. by left.
Qed.

(** A failing read of Redis is not an error of the call: it is reported
    in a warning and treated as a miss, whatever Redis holds. If the
    generator and the statement succeed, the call returns the generated
    statement and its rows with [cache_hit] unset. *)
Theorem redis_read_failure_is_a_miss e prompt st stmt rows msg :
  redis_ping e = Ok tt ->
  redis_get_link e = Raise msg ->
  get_sql_from_llm e prompt = Ok stmt ->
  executes e stmt rows ->
  let run := query_with_cache e prompt st in
  result_of run = Some (result_dict stmt false rows) /\
  count_events is_generate (log_of run) = 1%nat /\
  EvPrint (py "⚠️  Redis 读取失败: " ++ msg) ∈ log_of run.
Proof.
  intros Hp Hg Hllm Hex run. subst run.
  assert (stored_sql e st prompt = None) as Hs.
  { unfold stored_sql, backend_of. by rewrite Hp, Hg. }
  pose proof (resolve_sql_spec e prompt st) as Hspec. cbv zeta in Hspec.
  rewrite Hs, Hllm in Hspec. cbn in Hspec. destruct Hspec as [Hr _].
  unfold local_entry_present, backend_of in Hr. rewrite Hp in Hr.
  split; [|split].
  - rewrite query_with_cache_result, Hr.
    by rewrite (execute_sql_ok e stmt st rows Hex).
  - rewrite query_with_cache_count by (by intros []).
    by rewrite resolve_sql_generator, Hs.
  - apply query_with_cache_log_includes.
    by apply (proj1 (resolve_sql_warnings e prompt st)).
Qed.

Lemma redis_read_failure_witness :
  let e :=
    {| redis_ping := Ok tt;
       redis_get_link := Raise (py "Connection reset by peer");
       redis_setex_link := Ok tt;
       get_sql_from_llm := fun _ => Ok a_statement;
       db_connect := Ok tt; db_cursor := Ok tt;
       db_execute := fun _ => Ok tt;
       db_fetchall := fun _ => Ok two_rows;
       db_cursor_close := Ok tt; db_conn_close := Ok tt |} in
  let run := query_with_cache e a_prompt (fresh_process ∅) in
  result_of run = Some (result_dict a_statement false two_rows) /\
  count_events is_generate (log_of run) = 1%nat /\
  EvPrint (py "⚠️  Redis 读取失败: " ++ py "Connection reset by peer")
    ∈ log_of run.
Proof.
  eapply (redis_read_failure_is_a_miss _ a_prompt (fresh_process ∅)
            a_statement two_rows (py "Connection reset by peer")).
  - reflexivity.
  - reflexivity.
  - reflexivity.
  - vm_compute. repeat split; reflexivity.
Defined.

(** A failing write to Redis is not an error of the call either: it is
    reported in a warning, nothing is stored, and the generated
    statement is still executed and returned. *)
Theorem redis_write_failure_is_ignored e prompt st stmt rows msg :
  redis_ping e = Ok tt ->
  truthy (stored_sql e st prompt) = false ->
  get_sql_from_llm e prompt = Ok stmt ->
  redis_setex_link e = Raise msg ->
  executes e stmt rows ->
  let run := query_with_cache e prompt st in
  result_of run = Some (result_dict stmt false rows) /\
  state_of run = st /\
  EvPrint (py "⚠️  Redis 写入失败: " ++ msg) ∈ log_of run.
Proof.
  intros Hp Hs Hllm Hw Hex run. subst run.
  pose proof (resolve_sql_spec e prompt st) as Hspec. cbv zeta in Hspec.
  rewrite Hs, Hllm in Hspec. destruct Hspec as [Hr Hst].
  unfold local_entry_present, after_store, backend_of in Hr, Hst.
  rewrite Hp in Hr, Hst. rewrite Hw in Hst. cbn in Hst.
  split; [|split].
  - rewrite query_with_cache_result, Hr.
    by rewrite (execute_sql_ok e stmt st rows Hex).
  - by rewrite query_with_cache_state.
  - apply query_with_cache_log_includes.
    by apply (proj2 (resolve_sql_warnings e prompt st) msg stmt).
Qed.

Lemma redis_write_failure_witness :
  let e := redis_read_only (healthy two_rows) in
  let run := query_with_cache e a_prompt (fresh_process ∅) in
  result_of run = Some (result_dict a_statement false two_rows) /\
  state_of run = fresh_process ∅ /\
  EvPrint (py "⚠️  Redis 写入失败: "
             ++ py "READONLY You can't write against a read only replica.")
    ∈ log_of run.
Proof.
  eapply (redis_write_failure_is_ignored
            (redis_read_only (healthy two_rows)) a_prompt (fresh_process ∅)
            a_statement two_rows).
  - reflexivity.
  - vm_compute. reflexivity.
  - reflexivity.
  - reflexivity.
  - vm_compute. repeat split; reflexivity.
Defined.

(** The generated statement is stored before it is executed. When its
    execution fails the call returns [None], but the statement stays in
    the cache: the next call for the prompt takes it from there without
    calling the generator, and fails in the same way. *)
Theorem failing_statement_stays_cached e prompt st stmt :
  stored_sql e st prompt = None ->
  get_sql_from_llm e prompt = Ok stmt -> stmt <> [] ->
  (backend_of e = Shared ->
   redis_get_link e = Ok tt /\ redis_setex_link e = Ok tt) ->
  result_of (execute_sql e stmt st) = None ->
  let first := query_with_cache e prompt st in
  let second := query_with_cache e prompt (state_of first) in
  result_of first = None /\
  stored_sql e (state_of first) prompt = Some stmt /\
  count_events is_generate (log_of second) = 0%nat /\
  result_of second = None.
Proof.
  intros Hs Hg Hne Hrel Hex first second. subst first second.
  destruct (resolve_sql_miss e prompt st stmt Hs Hg Hrel) as [Hr Hstored].
  rewrite query_with_cache_state.
  destruct (resolve_sql_hit e prompt _ stmt Hstored Hne) as [Hr2 _].
  rewrite !query_with_cache_result, Hr, Hr2.
  rewrite query_with_cache_count by (by intros []).
  rewrite resolve_sql_generator, Hstored.
  destruct (execute_sql_any_state e stmt
              (state_of (resolve_sql e prompt st)) st) as [-> _].
  rewrite Hex. by destruct stmt.
Qed.

Lemma failing_statement_witness :
  let e := statements_rejected (redis_down (healthy two_rows)) in
  let first := query_with_cache e a_prompt (fresh_process ∅) in
  let second := query_with_cache e a_prompt (state_of first) in
  result_of first = None /\
  stored_sql e (state_of first) a_prompt = Some a_statement /\
  count_events is_generate (log_of second) = 0%nat /\
  result_of second = None.
Proof.
  apply (failing_statement_stays_cached
           (statements_rejected (redis_down (healthy two_rows)))
           a_prompt (fresh_process ∅) a_statement).
  - vm_compute. reflexivity.
  - reflexivity.
  - discriminate.
  - vm_compute. discriminate.
  - vm_compute. reflexivity.
Defined.

(** Whenever a call returns a result, the result is consistent: its
    rows are those that the execution of its statement fetched, its
    [count] is their number, and its statement is the only one that the
    call sent to the Relational Store. *)
Theorem query_with_cache_result_is_consistent e prompt st r :
  result_of (query_with_cache e prompt st) = Some r ->
  count r = len (data r) /\
  executes e (sql r) (data r) /\
  (forall stmt,
     EvDbExecute stmt ∈ log_of (query_with_cache e prompt st) <->
     stmt = sql r).
Proof.
  intros Hres. pose proof Hres as Hres'.
  rewrite query_with_cache_result in Hres.
  destruct (result_of (resolve_sql e prompt st)) as [[stmt hit]|] eqn:Hr;
    [|done].
  destruct (result_of (execute_sql e stmt st)) as [rows|] eqn:Hex; [|done].
  cbn in Hres. injection Hres as <-. cbn.
  pose proof (execute_sql_some e stmt st rows Hex) as Hexec.
  split; [done|]. split; [done|].
  intros stmt'. split.
  - intros Hin. apply query_with_cache_executed in Hin as [hit' Hr'].
    congruence.
  - intros ->. rewrite query_with_cache_unfold. cbv zeta. rewrite Hr.
    unfold log_of at 1. cbn [snd].
    rewrite (execute_sql_ok e stmt st rows Hexec). cbn.
    apply elem_of_app. right. set_solver.
Qed.

Lemma query_with_cache_result_witness :
  let e := healthy two_rows in
  let r := result_dict a_statement false two_rows in
  count r = len (data r) /\
  executes e (sql r) (data r) /\
  (forall stmt,
     EvDbExecute stmt ∈ log_of (query_with_cache e a_prompt (fresh_process ∅)) <->
     stmt = sql r).
Proof.
  apply (query_with_cache_result_is_consistent
           (healthy two_rows) a_prompt (fresh_process ∅)
           (result_dict a_statement false two_rows)).
  vm_compute. reflexivity.
Defined.

(** An empty string in the fallback mapping is both present and
    unusable: the call reports a hit ([cache_hit] is set in the result)
    and yet calls the generator, whose statement it executes, returns
    and stores in place of the empty one. *)
Theorem empty_local_entry_is_hit_and_miss e prompt st stmt rows msg :
  redis_ping e = Raise msg ->
  mock_cache st !! prompt = Some [] ->
  get_sql_from_llm e prompt = Ok stmt ->
  executes e stmt rows ->
  let run := query_with_cache e prompt st in
  result_of run = Some (result_dict stmt true rows) /\
  count_events is_generate (log_of run) = 1%nat /\
  mock_cache (state_of run) !! prompt = Some stmt.
Proof.
  intros Hp Hm Hllm Hex run. subst run.
  assert (stored_sql e st prompt = Some []) as Hs.
  { unfold stored_sql, backend_of. by rewrite Hp. }
  pose proof (resolve_sql_spec e prompt st) as Hspec. cbv zeta in Hspec.
  rewrite Hs, Hllm in Hspec. cbn in Hspec. destruct Hspec as [Hr Hst].
  unfold local_entry_present, after_store, backend_of in Hr, Hst.
  rewrite Hp in Hr, Hst. rewrite Hm in Hr. cbn in Hr.
  split; [|split].
  - rewrite query_with_cache_result, Hr.
    by rewrite (execute_sql_ok e stmt st rows Hex).
  - rewrite query_with_cache_count by (by intros []).
    by rewrite resolve_sql_generator, Hs.
  - rewrite query_with_cache_state, Hst. cbn. apply lookup_insert_eq.
Qed.

Lemma empty_local_entry_witness :
  let e := redis_down (healthy two_rows) in
  let st := {| mock_cache := {[ a_prompt := [] ]}; redis_db := ∅ |} in
  let run := query_with_cache e a_prompt st in
  result_of run = Some (result_dict a_statement true two_rows) /\
  count_events is_generate (log_of run) = 1%nat /\
  mock_cache (state_of run) !! a_prompt = Some a_statement.
Proof.
  eapply (empty_local_entry_is_hit_and_miss
            (redis_down (healthy two_rows)) a_prompt
            {| mock_cache := {[ a_prompt := [] ]}; redis_db := ∅ |}
            a_statement two_rows).
  - reflexivity.
  - vm_compute. reflexivity.
  - reflexivity.
  - vm_compute. repeat split; reflexivity.
Defined.

(** ** The shape of the printed table *)

Lemma len_app {A} (l1 l2 : list A) : len (l1 ++ l2) = len l1 + len l2.
Proof. unfold len. rewrite length_app. lia. Qed.

Lemma len_nonneg {A} (l : list A) : 0 <= len l.
Proof. unfold len. lia. Qed.

Lemma len_repeat_char c n : len (repeat_char c n) = Z.max 0 n.
Proof. unfold len, repeat_char. rewrite length_replicate. lia. Qed.

(** Padding on the right never shortens: the result has the requested
    width, or the length of the text if that is larger. *)
Lemma len_format_left w s : len (format_left w s) = Z.max w (len s).
Proof.
  unfold format_left. rewrite len_app, len_repeat_char.
  pose proof (len_nonneg s). lia.
Qed.

Lemma len_format_center w s : len (format_center w s) = Z.max w (len s).
Proof.
  unfold format_center. rewrite !len_app, !len_repeat_char.
  pose proof (len_nonneg s).
  assert (0 <= Z.max 0 (w - len s) / 2) by (apply Z.div_pos; lia).
  assert (Z.max 0 (w - len s) / 2 <= Z.max 0 (w - len s))
    by (apply Z.div_le_upper_bound; lia).
  lia.
Qed.

Lemma len_slice_to n s : 0 <= n -> len (slice_to n s) = Z.min n (len s).
Proof.
  intros Hn. rewrite slice_to_take by done.
  unfold len. rewrite length_take. lia.
Qed.

Lemma len_concat_map {A} (f : A -> pystr) (l : list A) :
  len (concat (map f l)) = sum_Z (map (fun x => len (f x)) l).
Proof.
  unfold sum_Z. induction l as [|x l IH]; [done|].
  cbn. rewrite len_app, IH. done.
Qed.

Lemma sum_Z_ext {A} (f g : A -> Z) (l : list A) :
  (forall x, x ∈ l -> f x = g x) -> sum_Z (map f l) = sum_Z (map g l).
Proof.
  unfold sum_Z. induction l as [|x l IH]; intros H; [done|].
  cbn. rewrite (H x) by left. rewrite IH; [done|].
  intros y Hy. apply H. by right.
Qed.

(** [sum(col_widths.values())] when the loop has entered distinct
    columns: the sum of their widths. *)
Lemma sum_of_widths_fold (data : list row) (cols : list pystr)
    (m : gmap pystr Z) :
  NoDup cols -> (forall c, c ∈ cols -> m !! c = None) ->
  map_fold (fun _ w acc => w + acc) 0
    (foldl (fun widths c => <[c := col_width data c]> widths) m cols)
  = map_fold (fun _ w acc => w + acc) 0 m
    + sum_Z (map (col_width data) cols).
Proof.
  unfold sum_Z.
  revert m. induction cols as [|c cols IH]; intros m Hnd Hfresh; cbn.
  - lia.
  - apply NoDup_cons in Hnd as [Hc Hnd].
    rewrite IH; [|done|].
    + rewrite map_fold_insert_L; [lia| |].
      * intros. lia.
      * apply Hfresh. left.
    + intros c' Hc'. rewrite lookup_insert_ne.
      * apply Hfresh. by right.
      * intros ->. done.
Qed.

Lemma total_width_of_columns (data : list row) (columns : list pystr) :
  NoDup columns ->
  total_width_of (compute_col_widths columns data) columns
  = sum_Z (map (fun c => col_width data c + 1) columns) + 1.
Proof.
  intros Hnd. unfold total_width_of, compute_col_widths.
  rewrite sum_of_widths_fold; [|done|intros; apply lookup_empty].
  rewrite map_fold_empty.
  assert (forall l : list pystr,
            sum_Z (map (fun c => col_width data c + 1) l)
            = sum_Z (map (col_width data) l) + len l) as Hsum.
  { unfold sum_Z. induction l as [|c l IH]; [done|].
    cbn. rewrite IH. unfold len. cbn. lia. }
  rewrite Hsum. lia.
Qed.

Lemma len_bar : len (py "|") = 1 /\ len (py " ") = 1 /\ len (py " |") = 2.
Proof. repeat split; reflexivity. Qed.

Lemma header_line_cells (columns : list pystr) (col_widths : gmap pystr Z) :
  header_line columns col_widths
  = py "|" ++
    concat (map (fun col =>
                   py " " ++ format_center (width_of col_widths col - 2) col
                   ++ py " |") columns).
Proof. unfold header_line. by rewrite <- foldl_cells. Qed.

Lemma len_header_line (data : list row) (columns : list pystr) :
  len (header_line columns (compute_col_widths columns data))
  = sum_Z (map (fun c => col_width data c + 1) columns) + 1.
Proof.
  destruct len_bar as (Hb & Hs & Hsb).
  rewrite header_line_cells, len_app, len_concat_map, Hb.
  rewrite (sum_Z_ext _ (fun c => col_width data c + 1)); [lia|].
  intros col Hcol. rewrite !len_app, len_format_center, Hs, Hsb.
  rewrite width_of_column by done. unfold col_width. lia.
Qed.

Lemma len_data_line (data : list row) (columns : list pystr) (r : row) :
  len (data_line columns (compute_col_widths columns data) r)
  = sum_Z (map (fun c => col_width data c + 1) columns) + 1.
Proof.
  destruct len_bar as (Hb & Hs & Hsb).
  rewrite data_line_cells, len_app, len_concat_map, Hb.
  rewrite (sum_Z_ext _ (fun c => col_width data c + 1)); [lia|].
  intros col Hcol. rewrite !len_app, len_format_left, Hs, Hsb.
  rewrite width_of_column by done.
  pose proof (col_width_nonneg data col).
  rewrite len_slice_to by done. lia.
Qed.

Lemma sum_Z_widths_nonneg (data : list row) (columns : list pystr) :
  0 <= sum_Z (map (fun c => col_width data c + 1) columns).
Proof.
  unfold sum_Z. induction columns as [|c cols IH]; cbn; [lia|].
  pose proof (col_width_nonneg data c). lia.
Qed.

(** The table is a rectangle. For a result with rows whose first row
    has distinct column names, [print_results] prints one line per row
    and four more (the three rules and the header) before the summary,
    and every one of them has the same length, [total_width]: the sum of
    the column widths plus the number of columns plus 1. This holds for
    rows that lack a column and for values of any length. *)
Theorem printed_table_is_rectangular results first rest st :
  data results = first :: rest ->
  NoDup (keys first) ->
  let columns := keys first in
  let col_widths := compute_col_widths columns (data results) in
  exists lines,
    printed (log_of (print_results (Some results) st))
    = lines ++ [summary_line results] /\
    length lines = (length (data results) + 4)%nat /\
    Forall (fun line => len line = total_width_of col_widths columns) lines /\
    total_width_of col_widths columns
    = sum_Z (map (fun c => width_of col_widths c) columns) + len columns + 1.
Proof.
  intros Hd Hnd columns col_widths.
  pose proof (print_results_table results first rest st Hd) as Hp.
  cbv zeta in Hp. fold columns in Hp. fold col_widths in Hp.
  set (W := total_width_of col_widths columns) in *.
  assert (W = sum_Z (map (fun c => col_width (data results) c + 1) columns) + 1)
    as HW by (by apply total_width_of_columns).
  pose proof (sum_Z_widths_nonneg (data results) columns) as Hpos.
  exists ([repeat_char equals_sign W; header_line columns col_widths;
           repeat_char equals_sign W]
          ++ map (data_line columns col_widths) (data results)
          ++ [repeat_char equals_sign W]).
  split; [|split; [|split]].
  - rewrite Hp. by rewrite <- !app_assoc.
  - rewrite !length_app, length_map. cbn. lia.
  - assert (len (repeat_char equals_sign W) = W) as Hrule
      by (rewrite len_repeat_char; lia).
    repeat (apply Forall_cons; split); try done.
    + rewrite HW. apply len_header_line.
    + apply Forall_app. split; [|by repeat constructor].
      apply Forall_forall. intros line Hin.
      apply list_elem_of_fmap in Hin as (r & -> & _).
      rewrite HW. apply len_data_line.
  - rewrite HW.
    assert (forall l : list pystr, (forall c, c ∈ l -> c ∈ columns) ->
              sum_Z (map (fun c => col_width (data results) c + 1) l)
              = sum_Z (map (fun c => width_of col_widths c) l) + len l)
      as Hsum.
    { unfold sum_Z. induction l as [|c l IH]; intros Hl; [done|].
      cbn. rewrite IH by (intros; apply Hl; by right).
      subst col_widths. rewrite width_of_column by (apply Hl; left).
      unfold len. cbn. lia. }
    rewrite Hsum by done. lia.
Qed.

Lemma printed_table_witness :
  let results := result_dict a_statement false two_rows in
  let columns := [py "id"; py "name"] in
  let col_widths := compute_col_widths columns (data results) in
  exists lines,
    printed (log_of (print_results (Some results) (fresh_process ∅)))
    = lines ++ [summary_line results] /\
    length lines = (length (data results) + 4)%nat /\
    Forall (fun line => len line = total_width_of col_widths columns) lines /\
    total_width_of col_widths columns
    = sum_Z (map (fun c => width_of col_widths c) columns) + len columns + 1.
Proof.
  apply (printed_table_is_rectangular
           (result_dict a_statement false two_rows)
           [(py "id", VStr (py "1")); (py "name", VStr (py "Alpha"))]
           [[(py "id", VStr (py "2")); (py "name", VStr (py "B"))]]
           (fresh_process ∅)).
  - reflexivity.
  - apply (bool_decide_unpack _). vm_compute. exact I.
Defined.

(** ** Rows of another shape than the first *)

(** [r.get(col, default)] on a row without the column. *)
Lemma row_get_missing (r : row) col d : col ∉ keys r -> row_get r col d = d.
Proof.
  induction r as [|[k v] r IH]; intros Hn; [done|].
  cbn. destruct (decide (k = col)) as [->|Hne].
  - exfalso. apply Hn. left.
  - apply IH. intros Hin. apply Hn. by right.
Qed.

(** The part of a row under the names in [columns]. *)
Lemma row_get_restrict (columns : list pystr) (r : row) col d :
  col ∈ columns ->
  row_get (List.filter (fun kv => bool_decide (kv.1 ∈ columns)) r) col d
  = row_get r col d.
Proof.
  intros Hcol. induction r as [|[k v] r IH]; [done|].
  cbn. case_bool_decide as Hk; cbn.
  - destruct (decide (k = col)); [done|apply IH].
  - destruct (decide (k = col)) as [->|]; [done|apply IH].
Qed.

(** A row holds nothing but what is under its own names. *)
Lemma restrict_own_keys (r : row) :
  List.filter (fun kv => bool_decide (kv.1 ∈ keys r)) r = r.
Proof.
  apply forallb_filter_id. apply forallb_forall. intros [k v] Hin.
  apply bool_decide_eq_true. apply list_elem_of_fmap. exists (k, v).
  split; [done|]. by apply list_elem_of_In.
Qed.

(** The widths depend on the rows through the cells of the columns
    only. *)
Lemma compute_col_widths_ext (columns : list pystr) (data data' : list row) :
  (forall col, col ∈ columns -> col_width data col = col_width data' col) ->
  compute_col_widths columns data = compute_col_widths columns data'.
Proof.
  unfold compute_col_widths. generalize (∅ : gmap pystr Z).
  induction columns as [|c columns IH]; intros m H; [done|].
  cbn. rewrite (H c) by left. apply IH. intros col Hcol. apply H. by right.
Qed.

(** The line of a row, for any columns and widths: a column that the
    row lacks gives a cell of spaces, and what the row holds under other
    names than the columns has no part in the line. *)
Lemma data_line_of_another_shape (columns : list pystr)
    (col_widths : gmap pystr Z) (r : row) :
  data_line columns col_widths r
  = py "|" ++
    concat (map (fun col =>
                   py " " ++
                   (if bool_decide (col ∈ keys r)
                    then format_left (width_of col_widths col - 2)
                           (slice_to (width_of col_widths col - 2)
                              (str (row_get r col (VStr []))))
                    else repeat_char space (width_of col_widths col - 2))
                   ++ py " |") columns) /\
  data_line columns col_widths
    (List.filter (fun kv => bool_decide (kv.1 ∈ columns)) r)
  = data_line columns col_widths r.
Proof.
  split.
  - rewrite data_line_cells. f_equal. apply concat_map_ext.
    intros col _. case_bool_decide as Hin; [done|].
    rewrite (row_get_missing r col _ Hin). cbn.
    do 2 f_equal. unfold slice_to, format_left.
    destruct (0 <=? _); rewrite take_nil; cbn; f_equal; unfold len; cbn; lia.
  - rewrite !data_line_cells. f_equal. apply concat_map_ext.
    intros col Hcol. by rewrite row_get_restrict.
Qed.

(** Rows of another shape than the first, as [print_results] prints
    them. The columns are those of the first row. A row that lacks one
    of them is printed without error, with a cell of spaces in that
    column, and a cell that the row has is shown in full. What a row
    holds under names that are not columns of the first row is never
    shown: the same lines are printed when every row is cut down to the
    columns of the first. *)
Theorem rows_of_another_shape results first rest :
  data results = first :: rest ->
  let columns := keys first in
  let col_widths := compute_col_widths columns (data results) in
  let rule := repeat_char equals_sign (total_width_of col_widths columns) in
  let shown (r : row) := List.filter (fun kv => bool_decide (kv.1 ∈ columns)) r in
  (forall st,
     printed (log_of (print_results (Some results) st))
     = [rule; header_line columns col_widths; rule]
       ++ map (fun r =>
                 py "|" ++
                 concat (map (fun col =>
                                py " " ++
                                (if bool_decide (col ∈ keys r)
                                 then format_left (width_of col_widths col - 2)
                                        (str (row_get r col (VStr [])))
                                 else repeat_char space
                                        (width_of col_widths col - 2))
                                ++ py " |") columns))
              (data results)
       ++ [rule; summary_line results]) /\
  (forall st,
     printed (log_of (print_results
        (Some {| sql := sql results; data := map shown (data results);
                 cache_hit := cache_hit results; count := count results |}) st))
     = printed (log_of (print_results (Some results) st))).
Proof.
  intros Hd columns col_widths rule shown.
  assert (forall r col, r ∈ data results -> col ∈ columns ->
            len (str (row_get r col (VStr []))) <= width_of col_widths col - 2)
    as Hfit.
  { intros r col Hr Hcol. subst col_widths.
    rewrite width_of_column by done. by apply col_width_fits. }
  split.
  - intros st. rewrite (print_results_table results first rest st Hd).
    subst rule col_widths columns. cbv zeta.
    f_equal. apply (f_equal (fun l => l ++ _)).
    apply map_ext_in. intros r Hr. apply list_elem_of_In in Hr.
    destruct (data_line_of_another_shape
                (keys first) (compute_col_widths (keys first) (data results)) r)
      as [-> _].
    f_equal. apply concat_map_ext. intros col Hcol.
    case_bool_decide; [|done].
    rewrite slice_to_all; [done|]. by apply Hfit.
  - intros st.
    set (results' := {| sql := sql results; data := map shown (data results);
                        cache_hit := cache_hit results;
                        count := count results |}).
    assert (data results' = first :: map shown rest) as Hd'.
    { cbn. rewrite Hd. cbn [map]. f_equal. apply restrict_own_keys. }
    rewrite (print_results_table results' first (map shown rest) st Hd').
    rewrite (print_results_table results first rest st Hd).
    cbv zeta. fold columns.
    assert (compute_col_widths columns (data results')
            = compute_col_widths columns (data results)) as ->.
    { apply compute_col_widths_ext. intros col Hcol. unfold col_width.
      do 3 f_equal. cbn [data results']. rewrite map_map.
      apply map_ext. intros r. unfold shown. by rewrite row_get_restrict. }
    fold col_widths. f_equal. f_equal.
    cbn [data results']. rewrite map_map. apply map_ext. intros r.
    apply data_line_of_another_shape.
Qed.

(** Witness: after a first row with [id] and [name], a row without
    [name] and a row with a [budget] besides. *)
Lemma another_shape_witness :
  let first := [(py "id", VStr (py "1")); (py "name", VStr (py "Alpha"))] in
  let rest := [[(py "id", VStr (py "2"))];
               [(py "id", VStr (py "3")); (py "name", VStr (py "C"));
                (py "budget", VStr (py "100000"))]] in
  let results := result_dict a_statement false (first :: rest) in
  let columns := keys first in
  let col_widths := compute_col_widths columns (data results) in
  let rule := repeat_char equals_sign (total_width_of col_widths columns) in
  let shown (r : row) := List.filter (fun kv => bool_decide (kv.1 ∈ columns)) r in
  (forall st,
     printed (log_of (print_results (Some results) st))
     = [rule; header_line columns col_widths; rule]
       ++ map (fun r =>
                 py "|" ++
                 concat (map (fun col =>
                                py " " ++
                                (if bool_decide (col ∈ keys r)
                                 then format_left (width_of col_widths col - 2)
                                        (str (row_get r col (VStr [])))
                                 else repeat_char space
                                        (width_of col_widths col - 2))
                                ++ py " |") columns))
              (data results)
       ++ [rule; summary_line results]) /\
  (forall st,
     printed (log_of (print_results
        (Some {| sql := sql results; data := map shown (data results);
                 cache_hit := cache_hit results; count := count results |}) st))
     = printed (log_of (print_results (Some results) st))).
Proof.
  apply (rows_of_another_shape
           (result_dict a_statement false
              ([(py "id", VStr (py "1")); (py "name", VStr (py "Alpha"))]
               :: [[(py "id", VStr (py "2"))];
                   [(py "id", VStr (py "3")); (py "name", VStr (py "C"));
                    (py "budget", VStr (py "100000"))]]))
           [(py "id", VStr (py "1")); (py "name", VStr (py "Alpha"))]
           [[(py "id", VStr (py "2"))];
            [(py "id", VStr (py "3")); (py "name", VStr (py "C"));
             (py "budget", VStr (py "100000"))]]).
  reflexivity.
Defined.

(** The table printed for these three rows. *)
Example another_shape_table stmt hit st :
  printed (log_of (print_results
     (Some (result_dict stmt hit
        [ [(py "id", VStr (py "1")); (py "name", VStr (py "Alpha"))];
          [(py "id", VStr (py "2"))];
          [(py "id", VStr (py "3")); (py "name", VStr (py "C"));
           (py "budget", VStr (py "100000"))] ])) st))
  = [py "==============";
     py "| id | name  |";
     py "==============";
     py "| 1  | Alpha |";
     py "| 2  |       |";
     py "| 3  | C     |";
     py "==============";
     py "📊  共 3 条记录 " ++ (if hit then py "(来自缓存)" else [])].
Proof. destruct hit; vm_compute; reflexivity. Qed.

(** ** The commands *)

(** [print_results] only prints. *)
Lemma print_results_only_prints results st :
  state_of (print_results results st) = st /\
  forall ev, ev ∈ log_of (print_results results st) -> is_print ev = true.
Proof.
  unfold print_results, state_of, log_of.
  destruct results as [results|]; [|split; [done|intros ev H; in_log H]].
  destruct (data results) as [|first rest] eqn:Hd;
    [split; [done|intros ev H; in_log H]|].
  pose proof (fun f => for_each_print (A := row) f (first :: rest)) as Hloop.
  unfold_monad. cbn [fst snd]. cbv zeta.
  rewrite Hloop. cbn [fst snd app]. split; [done|].
  intros ev Hin.
  repeat (apply elem_of_cons in Hin as [->|Hin]; [done|]).
  apply elem_of_app in Hin as [Hin|Hin].
  - apply list_elem_of_fmap in Hin as (r & -> & _). done.
  - in_log Hin.
Qed.

(** A loop whose body prints one line per element and does not raise. *)
Lemma try_for_each_prints {A} (f : A -> pystr) (body : A -> T unit)
    (l : list A) (st : State) :
  (forall x st', x ∈ l -> body x st' = (Ok tt, st', [EvPrint (f x)])) ->
  try_for_each l body st = (Ok tt, st, map (fun x => EvPrint (f x)) l).
Proof.
  induction l as [|x l IH]; intros H; [done|].
  cbn. unfold try_bind, mbind, M_bind.
  rewrite (H x st) by left. cbn.
  rewrite IH; [done|]. intros y st' Hy. apply H. by right.
Qed.

Lemma row_item_present (r : row) (key : pystr) (d : value) :
  key ∈ keys r -> row_item r key = Ok (row_get r key d).
Proof.
  induction r as [|[k v] r IH]; intros Hin; [by apply elem_of_nil in Hin|].
  cbn in *. destruct (decide (k = key)) as [->|Hne]; [done|].
  apply IH. apply elem_of_cons in Hin as [->|Hin]; done.
Qed.

(** ** Running the monad *)

Lemma result_of_run {A} (a : A) (st : State) (l : list event) :
  result_of (a, st, l) = a.
Proof. reflexivity. Qed.

Lemma state_of_run {A} (a : A) (st : State) (l : list event) :
  state_of (a, st, l) = st.
Proof. reflexivity. Qed.

Lemma log_of_run {A} (a : A) (st : State) (l : list event) :
  log_of (a, st, l) = l.
Proof. reflexivity. Qed.

Lemma bind_run {A B} (m : M A) (k : A -> M B) (st : State) :
  (m ≫= k) st
  = (result_of (k (result_of (m st)) (state_of (m st))),
     state_of (k (result_of (m st)) (state_of (m st))),
     log_of (m st) ++ log_of (k (result_of (m st)) (state_of (m st)))).
Proof.
  unfold mbind, M_bind, result_of, state_of, log_of.
  destruct (m st) as [[a st1] l1]. cbn.
  by destruct (k a st1) as [[b st2] l2].
Qed.

Lemma then_run {A} (m : M unit) (k : M A) (st : State) :
  (m;; k) st
  = (result_of (k (state_of (m st))), state_of (k (state_of (m st))),
     log_of (m st) ++ log_of (k (state_of (m st)))).
Proof. apply bind_run. Qed.

Lemma quiet_app l1 l2 : quiet l1 -> quiet l2 -> quiet (l1 ++ l2).
Proof.
  intros H1 H2 ev Hin. apply elem_of_app in Hin as [?|?]; auto.
Qed.

Lemma quiet_nil : quiet [].
Proof. intros ev Hin. by apply elem_of_nil in Hin. Qed.

Lemma quiet_print line : quiet [EvPrint line].
Proof. intros ev Hin. apply list_elem_of_singleton in Hin as ->. by right. Qed.

Lemma generated_app l1 l2 : generated (l1 ++ l2) = generated l1 ++ generated l2.
Proof. apply omap_app. Qed.

Lemma quiet_generated l : quiet l -> generated l = [].
Proof.
  unfold generated. induction l as [|ev l IH]; intros H; [done|].
  cbn. rewrite IH by (intros ev' Hin; apply H; by right).
  assert (ev ∈ ev :: l) as Hin by left.
  destruct (H ev Hin) as [Hd|Hp]; by destruct ev.
Qed.

Lemma quiet_count l p :
  quiet l ->
  (forall ev, is_db_call ev = true -> p ev = false) ->
  (forall line, p (EvPrint line) = false) ->
  count_events p l = 0%nat.
Proof.
  intros H Hdb Hpr. apply count_events_none. intros ev Hin.
  destruct (H ev Hin) as [?|Hp]; [auto|]. by destruct ev.
Qed.

Lemma execute_sql_quiet e stmt st : quiet (log_of (execute_sql e stmt st)).
Proof.
  intros ev Hin. apply execute_sql_log in Hin as [H|[line ->]]; auto.
Qed.

(** An execution that returns rows prints nothing. *)
Lemma execute_sql_printed_on_success e stmt st rows :
  result_of (execute_sql e stmt st) = Some rows ->
  printed (log_of (execute_sql e stmt st)) = [].
Proof.
  intros H. apply execute_sql_some in H.
  by rewrite (execute_sql_ok e stmt st rows H).
Qed.

Lemma print_results_quiet results st :
  quiet (log_of (print_results results st)).
Proof.
  intros ev Hin. right.
  exact (proj2 (print_results_only_prints results st) ev Hin).
Qed.

Lemma try_for_each_frame {A} (body : A -> T unit) (l : list A) (st : State) :
  (forall x st', state_of (body x st') = st') ->
  state_of (try_for_each l body st) = st.
Proof.
  intros H. revert st. induction l as [|x l IH]; intros st; [done|].
  cbn [try_for_each]. unfold try_bind. rewrite bind_run, state_of_run, H.
  destruct (result_of (body x st)); [apply IH|done].
Qed.

Lemma try_for_each_quiet {A} (body : A -> T unit) (l : list A) (st : State) :
  (forall x st', quiet (log_of (body x st'))) ->
  quiet (log_of (try_for_each l body st)).
Proof.
  intros H. revert st. induction l as [|x l IH]; intros st.
  - apply quiet_nil.
  - cbn [try_for_each]. unfold try_bind. rewrite bind_run, log_of_run.
    apply quiet_app; [apply H|].
    destruct (result_of (body x st)); [apply IH|apply quiet_nil].
Qed.

(** ** [show_tables], [show_schema] and [direct_sql] *)

Lemma show_tables_unfold e st :
  show_tables e st =
  let shown := execute_sql e (py "SHOW TABLES") st in
  match result_of shown with
  | Some (r :: rows) =>
      let listed :=
        try_for_each (r :: rows)
          (fun r => v ←? mret (first_value r);
                    print (py "   • " ++ str v);; mret (Ok tt)) st in
      (result_of listed, state_of listed,
       log_of shown ++ EvPrint (py "📋  数据库中的表:") :: log_of listed)
  | _ => (Ok tt, st, log_of shown)
  end.
Proof.
  cbv zeta. unfold show_tables, state_of, result_of, log_of.
  unfold mbind at 1. unfold M_bind at 1.
  pose proof (execute_sql_frame e (py "SHOW TABLES") st) as Hf.
  unfold state_of in Hf.
  destruct (execute_sql e (py "SHOW TABLES") st) as [[[[|r rows]|] st1] l1];
    cbn [fst snd] in Hf |- *; subst st1.
  - unfold mret, M_ret. by rewrite app_nil_r.
  - unfold mbind at 1. unfold M_bind at 1. unfold print at 1. unfold emit.
    cbv beta iota.
    by destruct (try_for_each (r :: rows) _ st) as [[? ?] ?].
  - unfold mret, M_ret. by rewrite app_nil_r.
Qed.

Lemma show_tables_quiet e st :
  state_of (show_tables e st) = st /\ quiet (log_of (show_tables e st)).
Proof.
  rewrite show_tables_unfold. cbv zeta.
  pose proof (execute_sql_quiet e (py "SHOW TABLES") st) as Hlog.
  destruct (result_of (execute_sql e (py "SHOW TABLES") st))
    as [[|r rows]|]; rewrite state_of_run, log_of_run; try done.
  split.
  - apply try_for_each_frame. intros [|[k v] x] st'; done.
  - apply quiet_app; [done|].
    change (?x :: ?l) with ([x] ++ l).
    apply quiet_app; [apply quiet_print|].
    apply try_for_each_quiet. intros [|[k v] x] st'.
    + apply quiet_nil.
    + apply quiet_print.
Qed.

(** [/tables]. When the statement fails, or the database has no table,
    [show_tables] prints nothing of its own, not even the heading, and
    does not raise: only the error line of the executor, if any, is
    seen. When rows come back, each with a column, it prints the
    heading and then the first cell of every row, in order. In every
    case the caches are as before. *)
Theorem show_tables_output e st :
  let run := show_tables e st in
  let shown := execute_sql e (py "SHOW TABLES") st in
  state_of run = st /\
  match result_of shown with
  | None | Some [] => result_of run = Ok tt /\ log_of run = log_of shown
  | Some rows =>
      Forall (fun r => r <> []) rows ->
      result_of run = Ok tt /\
      printed (log_of run)
      = py "📋  数据库中的表:"
          :: map (fun r => py "   • " ++ str (first_cell r)) rows
  end.
Proof.
  cbv zeta. split; [apply show_tables_quiet|].
  rewrite show_tables_unfold. cbv zeta.
  pose proof (execute_sql_printed_on_success e (py "SHOW TABLES") st) as Hp.
  destruct (result_of (execute_sql e (py "SHOW TABLES") st))
    as [[|r rows]|]; [done| |done].
  specialize (Hp _ eq_refl). intros Hne.
  rewrite (try_for_each_prints
             (fun r => py "   • " ++ str (first_cell r))).
  - rewrite !result_of_run, !log_of_run. split; [done|].
    rewrite printed_app, Hp. cbn [app].
    unfold printed at 1. cbn [omap list_omap]. f_equal.
    apply (printed_prints (A := row)).
  - intros [|[k v] x] st' Hin; [|done].
    rewrite Forall_forall in Hne. by specialize (Hne _ Hin).
Qed.

Lemma show_schema_unfold e st :
  show_schema e st =
  let shown := execute_sql e (py "DESCRIBE ai_projects") st in
  match result_of shown with
  | Some (r :: rows) =>
      let listed :=
        try_for_each (r :: rows)
          (fun r =>
             field ←? mret (row_item r (py "Field"));
             type ←? mret (row_item r (py "Type"));
             null ←? mret (row_item r (py "Null"));
             key ←? mret (row_item r (py "Key"));
             print (py "   • " ++ str field ++ py ": " ++ str type ++ py " "
                      ++ str null ++ py " " ++ str key);;
             mret (Ok tt)) st in
      (result_of listed, state_of listed,
       EvPrint (py "📐  ai_projects 表结构:") :: log_of shown ++ log_of listed)
  | _ => (Ok tt, st, EvPrint (py "📐  ai_projects 表结构:") :: log_of shown)
  end.
Proof.
  cbv zeta. unfold show_schema, state_of, result_of, log_of.
  unfold mbind at 1. unfold M_bind at 1. unfold print at 1. unfold emit.
  cbv beta iota.
  unfold mbind at 1. unfold M_bind at 1.
  pose proof (execute_sql_frame e (py "DESCRIBE ai_projects") st) as Hf.
  unfold state_of in Hf.
  destruct (execute_sql e (py "DESCRIBE ai_projects") st)
    as [[[[|r rows]|] st1] l1];
    cbn [fst snd] in Hf |- *; subst st1.
  - unfold mret, M_ret. by rewrite app_nil_r.
  - by destruct (try_for_each (r :: rows) _ st) as [[? ?] ?].
  - unfold mret, M_ret. by rewrite app_nil_r.
Qed.

Lemma show_schema_quiet e st :
  state_of (show_schema e st) = st /\ quiet (log_of (show_schema e st)).
Proof.
  rewrite show_schema_unfold. cbv zeta.
  pose proof (execute_sql_quiet e (py "DESCRIBE ai_projects") st) as Hlog.
  destruct (result_of (execute_sql e (py "DESCRIBE ai_projects") st))
    as [[|r rows]|]; rewrite state_of_run, log_of_run;
    (split;
     [|change (?x :: ?l) with ([x] ++ l);
       (apply quiet_app; [apply quiet_print|])]); try done.
  - apply try_for_each_frame. intros x st'.
    unfold try_bind, mbind, M_bind, mret, M_ret, print, emit, state_of. cbn.
    destruct (row_item x (py "Field")); [|done].
    destruct (row_item x (py "Type")); [|done].
    destruct (row_item x (py "Null")); [|done].
    destruct (row_item x (py "Key")); done.
  - apply quiet_app; [done|].
    apply try_for_each_quiet. intros x st'.
    unfold try_bind, mbind, M_bind, mret, M_ret, print, emit, log_of. cbn.
    destruct (row_item x (py "Field")); [|apply quiet_nil].
    destruct (row_item x (py "Type")); [|apply quiet_nil].
    destruct (row_item x (py "Null")); [|apply quiet_nil].
    destruct (row_item x (py "Key")); [|apply quiet_nil].
    apply quiet_print.
Qed.

(** [/schema]. The heading is printed before the database is asked, so
    it appears even when the statement fails (followed then by the
    error line of the executor only). When rows come back with the
    columns [Field], [Type], [Null] and [Key], one line per row follows
    the heading. In every case the caches are as before. *)
Theorem show_schema_output e st :
  let run := show_schema e st in
  let shown := execute_sql e (py "DESCRIBE ai_projects") st in
  state_of run = st /\
  head (log_of run) = Some (EvPrint (py "📐  ai_projects 表结构:")) /\
  match result_of shown with
  | None =>
      result_of run = Ok tt /\
      log_of run = EvPrint (py "📐  ai_projects 表结构:") :: log_of shown
  | Some rows =>
      Forall (fun r => Forall (fun k => k ∈ keys r) schema_keys) rows ->
      result_of run = Ok tt /\
      printed (log_of run)
      = py "📐  ai_projects 表结构:" :: map schema_line rows
  end.
Proof.
  cbv zeta. split; [apply show_schema_quiet|].
  rewrite show_schema_unfold. cbv zeta.
  pose proof (execute_sql_printed_on_success e (py "DESCRIBE ai_projects") st)
    as Hp.
  destruct (result_of (execute_sql e (py "DESCRIBE ai_projects") st))
    as [[|r rows]|]; rewrite ?state_of_run, ?result_of_run, ?log_of_run;
    try specialize (Hp _ eq_refl).
  - split; [done|]. intros _. split; [done|].
    change (?x :: ?l) with ([x] ++ l). by rewrite printed_app, Hp.
  - split; [done|]. intros Hkeys.
    rewrite (try_for_each_prints schema_line).
    + rewrite !result_of_run, !log_of_run. split; [done|].
      change (?x :: ?l ++ ?m) with ([x] ++ l ++ m).
      rewrite !printed_app, Hp. cbn [app].
      unfold printed at 1. cbn [omap list_omap]. f_equal.
      apply (printed_prints (A := row)).
    + intros x st' Hin. rewrite Forall_forall in Hkeys.
      specialize (Hkeys _ Hin).
      unfold schema_keys in Hkeys.
      apply Forall_cons in Hkeys as [H1 Hkeys].
      apply Forall_cons in Hkeys as [H2 Hkeys].
      apply Forall_cons in Hkeys as [H3 Hkeys].
      apply Forall_cons in Hkeys as [H4 _].
      unfold try_bind, mbind, M_bind, mret, M_ret, print, emit.
      rewrite (row_item_present x _ VNone H1).
      rewrite (row_item_present x _ VNone H2).
      rewrite (row_item_present x _ VNone H3).
      rewrite (row_item_present x _ VNone H4).
      reflexivity.
  - done.
Qed.

Lemma direct_sql_unfold e line st :
  direct_sql e line st =
  match strip line with
  | [] => (tt, st, [])
  | c :: s =>
      let run := execute_sql e (c :: s) st in
      (tt, st,
       EvPrint (py "🔍  执行: " ++ c :: s) :: log_of run
       ++ match result_of run with
          | Some rows =>
              log_of (print_results
                        (Some (result_dict (c :: s) false rows)) st)
          | None => []
          end)
  end.
Proof.
  unfold direct_sql. destruct (strip line) as [|c s]; [done|].
  cbv zeta. unfold result_of, log_of.
  unfold mbind at 1. unfold M_bind at 1. unfold print at 1. unfold emit.
  cbv beta iota.
  unfold mbind at 1. unfold M_bind at 1.
  pose proof (execute_sql_frame e (c :: s) st) as Hf. unfold state_of in Hf.
  destruct (execute_sql e (c :: s) st) as [[[rows|] st1] l1];
    cbn [fst snd] in Hf |- *; subst st1.
  - pose proof (print_results_only_prints
                  (Some (result_dict (c :: s) false rows)) st) as [Hs _].
    unfold state_of, result_dict in *.
    destruct (print_results _ st) as [[[] st2] l2]. cbn in *. by subst.
  - unfold mret, M_ret. by rewrite app_nil_r.
Qed.

Lemma direct_sql_quiet e line st :
  state_of (direct_sql e line st) = st /\
  quiet (log_of (direct_sql e line st)).
Proof.
  rewrite direct_sql_unfold.
  destruct (strip line) as [|c s]; [split; [done|apply quiet_nil]|].
  cbv zeta. rewrite state_of_run, log_of_run. split; [done|].
  change (?x :: ?l ++ ?m) with ([x] ++ l ++ m).
  apply quiet_app; [apply quiet_print|].
  apply quiet_app; [apply execute_sql_quiet|].
  destruct (result_of (execute_sql e (c :: s) st));
    [apply print_results_quiet|apply quiet_nil].
Qed.

(** [/sql] goes past the cache. [direct_sql] leaves both caches as they
    are and contacts neither Redis nor the generator; the only
    statement it sends is the stripped line; and a blank line makes it
    return at once, without contacting the Relational Store. *)
Theorem direct_sql_bypasses_the_cache e line st :
  let run := direct_sql e line st in
  state_of run = st /\
  (forall ev, ev ∈ log_of run -> is_db_call ev = true \/ is_print ev = true) /\
  (forall stmt, EvDbExecute stmt ∈ log_of run -> stmt = strip line) /\
  (strip line = [] -> log_of run = []).
Proof.
  cbv zeta. destruct (direct_sql_quiet e line st) as [Hst Hq].
  split; [done|]. split; [done|].
  rewrite direct_sql_unfold.
  destruct (strip line) as [|c s] eqn:Hs;
    [split; [intros stmt Hin; by apply elem_of_nil in Hin|done]|].
  cbv zeta. rewrite log_of_run. split; [|done].
  intros stmt Hin. apply elem_of_cons in Hin as [?|Hin]; [done|].
  apply elem_of_app in Hin as [Hin|Hin];
    [by apply execute_sql_statement in Hin|].
  destruct (result_of (execute_sql e (c :: s) st)) as [rows|];
    [|by apply elem_of_nil in Hin].
  by pose proof (proj2 (print_results_only_prints
                    (Some (result_dict (c :: s) false rows)) st) _ Hin).
Qed.

(** What [/sql] shows for a statement that succeeds: the echo of the
    stripped statement, then the table of [print_results] for a result
    whose [cache_hit] is unset; with rows, the last line is the summary
    with their number and without the mark of the cache. *)
Theorem direct_sql_prints_an_uncached_table e line st rows :
  strip line <> [] ->
  executes e (strip line) rows ->
  printed (log_of (direct_sql e line st))
  = (py "🔍  执行: " ++ strip line)
      :: printed (log_of (print_results
                            (Some (result_dict (strip line) false rows)) st)) /\
  (rows <> [] ->
   last (printed (log_of (direct_sql e line st)))
   = Some (py "📊  共 " ++ str_of_int (len rows) ++ py " 条记录 ")).
Proof.
  intros Hne Hex. rewrite direct_sql_unfold.
  destruct (strip line) as [|c s] eqn:Hs; [done|].
  cbv zeta. rewrite log_of_run.
  rewrite (execute_sql_ok e (c :: s) st rows Hex).
  rewrite result_of_run, log_of_run.
  assert (printed
            (EvPrint (py "🔍  执行: " ++ c :: s)
             :: [EvDbConnect; EvDbCursor; EvDbExecute (c :: s); EvDbFetchall;
                 EvDbCursorClose; EvDbConnClose]
             ++ log_of (print_results
                          (Some (result_dict (c :: s) false rows)) st))
          = (py "🔍  执行: " ++ c :: s)
              :: printed (log_of (print_results
                   (Some (result_dict (c :: s) false rows)) st))) as Heq.
  { change (?x :: ?l ++ ?m) with ((x :: l) ++ m). by rewrite printed_app. }
  split; [done|].
  intros Hrows. rewrite Heq.
  destruct rows as [|first rest]; [done|].
  rewrite (print_results_table _ first rest st) by done.
  cbv zeta. rewrite !app_comm_cons, app_assoc.
  change [?a; ?b] with ([a] ++ [b]). rewrite !app_assoc.
  rewrite last_snoc. unfold summary_line. cbn. by rewrite app_nil_r.
Qed.

Lemma direct_sql_witness :
  let e := healthy two_rows in
  let line := py "  SELECT * FROM ai_projects  " in
  printed (log_of (direct_sql e line (fresh_process ∅)))
  = (py "🔍  执行: " ++ strip line)
      :: printed (log_of (print_results
                            (Some (result_dict (strip line) false two_rows))
                            (fresh_process ∅))) /\
  (two_rows <> [] ->
   last (printed (log_of (direct_sql e line (fresh_process ∅))))
   = Some (py "📊  共 " ++ str_of_int (len two_rows) ++ py " 条记录 ")).
Proof.
  apply (direct_sql_prints_an_uncached_table
           (healthy two_rows) (py "  SELECT * FROM ai_projects  ")
           (fresh_process ∅) two_rows).
  - vm_compute. discriminate.
  - vm_compute. repeat split; reflexivity.
Defined.

(** ** The session *)

Section SessionFacts.

Variable lower : pystr -> pystr.

Abbreviation loop := (Interactive.loop lower).

(** The loop on a line, by the action that the line selects. *)
Lemma loop_unfold e text rest :
  loop ((e, Line text) :: rest) =
  match dispatch lower text with
  | Skip => loop rest
  | Leave => print (py "👋  再见!");; mret Quit
  | Help => show_help;; loop rest
  | Tables => r ← show_tables e; Interactive.report r;; loop rest
  | Schema => r ← show_schema e; Interactive.report r;; loop rest
  | Sql =>
      match rest with
      | [] => Interactive.report (Raise Interactive.end_of_input);; loop rest
      | (_, Interrupt) :: _ =>
          print Interactive.goodbye_on_interrupt;; mret Interrupted
      | (e', Line statement) :: rest' =>
          direct_sql e' statement;; loop rest'
      end
  | Query prompt => ordinary_query e prompt;; loop rest
  end.
Proof.
  unfold dispatch. cbn [Interactive.loop]. cbv zeta.
  repeat case_bool_decide; reflexivity.
Qed.

(** Induction along the turns of the loop. *)
Lemma loop_induction (P : list (Env * keyboard) -> Prop) :
  P [] ->
  (forall e rest, P ((e, Interrupt) :: rest)) ->
  (forall e text rest,
     dispatch lower text = Leave -> P ((e, Line text) :: rest)) ->
  (forall e text rest,
     dispatch lower text <> Leave -> dispatch lower text <> Sql ->
     P rest -> P ((e, Line text) :: rest)) ->
  (forall e text,
     dispatch lower text = Sql -> P [(e, Line text)]) ->
  (forall e text e' rest,
     dispatch lower text = Sql ->
     P ((e, Line text) :: (e', Interrupt) :: rest)) ->
  (forall e text e' statement rest,
     dispatch lower text = Sql -> P rest ->
     P ((e, Line text) :: (e', Line statement) :: rest)) ->
  forall inputs, P inputs.
Proof.
  intros Hnil Hint Hleave Hstep Hsql0 Hsqli Hsql inputs.
  assert (forall n inputs, (length inputs <= n)%nat -> P inputs) as Hall.
  { clear inputs. induction n as [|n IH]; intros inputs Hlen.
    - destruct inputs; [done|cbn in Hlen; lia].
    - destruct inputs as [|[e [text|]] rest]; [done| |apply Hint].
      cbn in Hlen.
      destruct (dispatch lower text) eqn:Hd;
        try (apply Hstep; [by rewrite Hd..|]; apply IH; lia).
      + by apply Hleave.
      + destruct rest as [|[e' [statement|]] rest];
          [by apply Hsql0| |by apply Hsqli].
        apply Hsql; [done|]. apply IH. cbn in Hlen. lia. }
  by apply (Hall (length inputs)).
Qed.

Lemma report_quiet r st :
  state_of (Interactive.report r st) = st /\
  quiet (log_of (Interactive.report r st)).
Proof. destruct r; split; try done; [apply quiet_nil|apply quiet_print]. Qed.


Lemma loop_ignores_input_after_the_end inputs st after :
  result_of (loop inputs st) <> EndOfInput ->
  loop (inputs ++ after) st = loop inputs st.
Proof.
  revert st. pattern inputs. apply loop_induction; clear inputs.
  - intros st H. done.
  - intros e rest st _. done.
  - intros e text rest Hd st _. rewrite <- app_comm_cons.
    by rewrite !loop_unfold, Hd.
  - intros e text rest Hl Hs IH st. rewrite <- app_comm_cons.
    rewrite !loop_unfold.
    destruct (dispatch lower text); try done;
      rewrite ?bind_run, ?then_run, ?result_of_run;
      intros H; by rewrite IH.
  - intros e text Hd st. rewrite loop_unfold, Hd.
    rewrite then_run, result_of_run. done.
  - intros e text e' rest Hd st _. rewrite <- !app_comm_cons.
    by rewrite !loop_unfold, Hd.
  - intros e text e' statement rest Hd IH st. rewrite <- !app_comm_cons.
    rewrite !loop_unfold, Hd. rewrite !then_run, result_of_run.
    intros H. by rewrite IH.
Qed.

Lemma resolve_sql_generated e prompt st :
  generated (log_of (resolve_sql e prompt st))
  = if truthy (stored_sql e st prompt) then [] else [prompt].
Proof.
  unfold log_of, stored_sql, backend_of.
  cache_cases e prompt st; generator_cases e prompt; done.
Qed.

Lemma query_with_cache_generated e prompt st :
  generated (log_of (query_with_cache e prompt st))
  = if truthy (stored_sql e st prompt) then [] else [prompt].
Proof.
  rewrite query_with_cache_unfold. cbv zeta.
  pose proof (resolve_sql_generated e prompt st) as Hg.
  destruct (result_of (resolve_sql e prompt st)) as [[stmt hit]|];
    rewrite log_of_run; [|done].
  rewrite generated_app, Hg.
  change (?x :: ?l) with ([x] ++ l). rewrite generated_app.
  rewrite (quiet_generated (log_of (execute_sql e stmt st)))
    by apply execute_sql_quiet.
  cbn. by rewrite app_nil_r.
Qed.

Lemma ordinary_query_generated e prompt st :
  generated (log_of (ordinary_query e prompt st))
  = if truthy (stored_sql e st prompt) then [] else [prompt].
Proof.
  rewrite ordinary_query_log. cbv zeta.
  change (?a :: ?b :: ?l ++ ?m) with ([a; b] ++ l ++ m).
  rewrite !generated_app, query_with_cache_generated.
  assert (generated
            match result_of (query_with_cache e prompt st) with
            | Some r =>
                log_of (print_results (Some r)
                          (state_of (query_with_cache e prompt st)))
            | None => [EvPrint (py "❌  查询失败")]
            end = []) as ->.
  { destruct (result_of (query_with_cache e prompt st)); [|done].
    apply quiet_generated, print_results_quiet. }
  cbn. by rewrite app_nil_r.
Qed.

Lemma loop_generated inputs st :
  sublist (generated (log_of (loop inputs st))) (query_lines lower inputs).
Proof.
  revert st. pattern inputs. apply loop_induction; clear inputs.
  - intros st. done.
  - intros e rest st. done.
  - intros e text rest Hd st. rewrite loop_unfold. cbn [query_lines].
    rewrite Hd. done.
  - intros e text rest Hl Hs IH st. rewrite loop_unfold.
    cbn [query_lines].
    destruct (dispatch lower text) as [| | | | | |prompt].
    + apply IH.
    + done.
    + rewrite then_run, log_of_run, generated_app. apply IH.
    + rewrite bind_run, then_run, !log_of_run, !generated_app.
      rewrite (quiet_generated (log_of (show_tables e st)))
        by apply show_tables_quiet.
      rewrite (quiet_generated (log_of (Interactive.report _ _)))
        by apply report_quiet.
      apply IH.
    + rewrite bind_run, then_run, !log_of_run, !generated_app.
      rewrite (quiet_generated (log_of (show_schema e st)))
        by apply show_schema_quiet.
      rewrite (quiet_generated (log_of (Interactive.report _ _)))
        by apply report_quiet.
      apply IH.
    + done.
    + rewrite then_run, log_of_run, generated_app.
      rewrite ordinary_query_generated.
      destruct (truthy (stored_sql e st prompt)); cbn.
      * apply sublist_cons, IH.
      * apply sublist_skip, IH.
  - intros e text Hd st. rewrite loop_unfold. cbn [query_lines].
    rewrite Hd. done.
  - intros e text e' rest Hd st. rewrite loop_unfold. cbn [query_lines].
    rewrite Hd. done.
  - intros e text e' statement rest Hd IH st. rewrite loop_unfold.
    cbn [query_lines]. rewrite Hd.
    rewrite then_run, log_of_run, generated_app.
    rewrite (quiet_generated (log_of (direct_sql e' statement st)))
      by apply direct_sql_quiet.
    apply IH.
Qed.

Lemma loop_without_queries inputs st :
  query_lines lower inputs = [] ->
  state_of (loop inputs st) = st /\ quiet (log_of (loop inputs st)).
Proof.
  revert st. pattern inputs. apply loop_induction; clear inputs.
  - intros st _. split; [done|apply quiet_print].
  - intros e rest st _. split; [done|apply quiet_print].
  - intros e text rest Hd st _. rewrite loop_unfold, Hd.
    split; [done|apply quiet_print].
  - intros e text rest Hl Hs IH st. rewrite loop_unfold.
    cbn [query_lines].
    destruct (dispatch lower text) as [| | | | | |prompt]; intros Hq.
    + by apply IH.
    + done.
    + rewrite then_run, state_of_run, log_of_run.
      split; [by apply IH|].
      apply quiet_app; [apply quiet_print|by apply IH].
    + rewrite bind_run, then_run, !state_of_run, !log_of_run.
      destruct (show_tables_quiet e st) as [-> Hquiet].
      destruct (report_quiet (result_of (show_tables e st)) st) as [-> Hrep].
      split; [by apply IH|].
      apply quiet_app; [done|]. apply quiet_app; [done|by apply IH].
    + rewrite bind_run, then_run, !state_of_run, !log_of_run.
      destruct (show_schema_quiet e st) as [-> Hquiet].
      destruct (report_quiet (result_of (show_schema e st)) st) as [-> Hrep].
      split; [by apply IH|].
      apply quiet_app; [done|]. apply quiet_app; [done|by apply IH].
    + done.
    + done.
  - intros e text Hd st _. rewrite loop_unfold, Hd.
    split; [done|].
    rewrite then_run, log_of_run. apply quiet_app; apply quiet_print.
  - intros e text e' rest Hd st _. rewrite loop_unfold, Hd.
    split; [done|apply quiet_print].
  - intros e text e' statement rest Hd IH st. rewrite loop_unfold.
    cbn [query_lines]. rewrite Hd. intros Hq.
    rewrite then_run, state_of_run, log_of_run.
    destruct (direct_sql_quiet e' statement st) as [-> Hquiet].
    split; [by apply IH|]. apply quiet_app; [done|by apply IH].
Qed.

Lemma run_eta_loop inputs st :
  loop inputs st
  = (result_of (loop inputs st), state_of (loop inputs st),
     log_of (loop inputs st)).
Proof. by destruct (loop inputs st) as [[? ?] ?]. Qed.

(** [main] is its start-up followed by the loop. The start-up changes
    no cache, calls no generator and probes Redis at most once. *)
Lemma main_unfold e0 st :
  exists pre,
    generated pre = [] /\
    count_events is_shared_access pre = 0%nat /\
    count_events is_local_access pre = 0%nat /\
    (count_events is_probe pre <= 1)%nat /\
    forall inputs,
      Interactive.main lower e0 inputs st =
      match db_connect e0, db_conn_close e0 with
      | Raise _, _ => (NoDatabase, st, pre)
      | Ok _, Raise _ => (Uncaught, st, pre)
      | Ok _, Ok _ =>
          (result_of (loop inputs st), state_of (loop inputs st),
           pre ++ log_of (loop inputs st))
      end.
Proof.
  unfold Interactive.main, show_help, get_db_connection, get_redis_client.
  unfold_monad.
  destruct (db_connect e0) as [[]|msg]; cbn.
  - destruct (db_conn_close e0) as [[]|msg]; cbn.
    + destruct (redis_ping e0) as [[]|msg]; cbn.
      * exists [EvPrint help_banner; EvDbConnect;
                EvPrint (py "✅  MySQL 连接成功!"); EvDbConnClose; EvRedisPing;
                EvPrint (py "✅  Redis 连接成功!");
                EvPrint (newline :: repeat_char equals_sign 60)].
        split; [done|]. split; [done|]. split; [done|].
        split; [cbn; lia|].
        intros inputs. by destruct (loop inputs st) as [[? ?] ?].
      * exists [EvPrint help_banner; EvDbConnect;
                EvPrint (py "✅  MySQL 连接成功!"); EvDbConnClose; EvRedisPing;
                EvPrint (py "⚠️  Redis 未连接: " ++ msg);
                EvPrint (py "⚠️   Redis 未连接，将使用内存缓存");
                EvPrint (newline :: repeat_char equals_sign 60)].
        split; [done|]. split; [done|]. split; [done|].
        split; [cbn; lia|].
        intros inputs. by destruct (loop inputs st) as [[? ?] ?].
    + eexists. split; [|split; [|split; [|split; [|intros; reflexivity]]]];
        cbn; done || lia.
  - eexists. split; [|split; [|split; [|split; [|intros; reflexivity]]]];
      cbn; done || lia.
Qed.



(** Once a session has ended, on a quit word or on an interrupt, what
    the keyboard still holds is never read: the session is the same
    whatever follows. *)
Theorem input_after_the_end_is_ignored e0 inputs st after :
  result_of (Interactive.main lower e0 inputs st) <> EndOfInput ->
  Interactive.main lower e0 (inputs ++ after) st
  = Interactive.main lower e0 inputs st.
Proof.
  destruct (main_unfold e0 st) as (pre & _ & _ & _ & _ & Hm).
  rewrite !Hm.
  destruct (db_connect e0) as [[]|msg]; [|done].
  destruct (db_conn_close e0) as [[]|msg]; [|done].
  rewrite result_of_run. intros H.
  by rewrite loop_ignores_input_after_the_end.
Qed.

(** In a session the generator is only ever called for the queries of
    the session, each at most once and in their order: blank lines,
    commands, the statements typed after [/sql] and whatever follows the
    end of the session never reach it. *)
Theorem generator_only_sees_the_queries e0 inputs st :
  sublist (generated (log_of (Interactive.main lower e0 inputs st)))
          (query_lines lower inputs).
Proof.
  destruct (main_unfold e0 st) as (pre & Hg & _ & _ & _ & Hm).
  rewrite Hm.
  destruct (db_connect e0) as [[]|msg];
    [|rewrite log_of_run, Hg; apply sublist_nil_l].
  destruct (db_conn_close e0) as [[]|msg];
    [|rewrite log_of_run, Hg; apply sublist_nil_l].
  rewrite log_of_run, generated_app, Hg. apply loop_generated.
Qed.

(** A session without queries leaves both caches as they were, never
    calls the generator and never reads or writes a cache; Redis is
    probed at most once, at start-up. Commands, [/sql] included, only
    use the Relational Store and the terminal. *)
Theorem session_without_queries_touches_no_cache e0 inputs st :
  query_lines lower inputs = [] ->
  let run := Interactive.main lower e0 inputs st in
  state_of run = st /\
  generated (log_of run) = [] /\
  count_events is_shared_access (log_of run) = 0%nat /\
  count_events is_local_access (log_of run) = 0%nat /\
  (count_events is_probe (log_of run) <= 1)%nat.
Proof.
  intros Hq. cbv zeta.
  destruct (main_unfold e0 st) as (pre & Hg & Hs & Hl & Hp & Hm).
  rewrite Hm.
  destruct (loop_without_queries inputs st Hq) as [Hst Hquiet].
  destruct (db_connect e0) as [[]|msg];
    [|by rewrite state_of_run, log_of_run].
  destruct (db_conn_close e0) as [[]|msg];
    [|by rewrite state_of_run, log_of_run].
  rewrite state_of_run, log_of_run, generated_app, !count_events_app.
  rewrite Hg, Hs, Hl, (quiet_generated _ Hquiet).
  rewrite !(quiet_count _ _ Hquiet) by (by intros []).
  repeat split; try done. lia.
Qed.

End SessionFacts.

Lemma input_after_the_end_witness :
  let e := healthy two_rows in
  Interactive.main ascii_lower e
    ([(e, Line (py "/help")); (e, Line (py " EXIT "))]
     ++ [(e, Line a_prompt)]) (fresh_process ∅)
  = Interactive.main ascii_lower e
      [(e, Line (py "/help")); (e, Line (py " EXIT "))] (fresh_process ∅).
Proof.
  apply (input_after_the_end_is_ignored ascii_lower (healthy two_rows)).
  vm_compute. discriminate.
Defined.

Lemma session_without_queries_witness :
  let e := healthy two_rows in
  let inputs :=
    [(e, Line (py "   ")); (e, Line (py "/TABLES")); (e, Line (py "/sql"));
     (e, Line (py "DESCRIBE ai_projects")); (e, Line (py "/Schema"));
     (e, Line (py "quit")); (e, Line a_prompt)] in
  let run := Interactive.main ascii_lower e inputs local_entry in
  state_of run = local_entry /\
  generated (log_of run) = [] /\
  count_events is_shared_access (log_of run) = 0%nat /\
  count_events is_local_access (log_of run) = 0%nat /\
  (count_events is_probe (log_of run) <= 1)%nat.
Proof.
  apply (session_without_queries_touches_no_cache ascii_lower
           (healthy two_rows)).
  vm_compute. reflexivity.
Defined.

(** ** A turn of the loop for a query *)

(** How a query ends on the screen. The last line that a turn prints
    tells the three outcomes apart: the failure line when the call
    returned [None], the empty-result line when it returned no rows, and
    otherwise the summary of [print_results] with the number of rows. *)
Theorem ordinary_query_last_line e user_input st :
  last (printed (log_of (ordinary_query e user_input st)))
  = Some (match result_of (query_with_cache e user_input st) with
          | None => py "❌  查询失败"
          | Some r =>
              match data r with
              | [] => py "📭  查询结果为空"
              | _ :: _ => summary_line r
              end
          end).
Proof.
  rewrite ordinary_query_log. cbv zeta.
  change (?a :: ?b :: ?l ++ ?m) with ((a :: b :: l) ++ m).
  rewrite printed_app.
  destruct (result_of (query_with_cache e user_input st)) as [r|].
  - destruct (data r) as [|first rest] eqn:Hd.
    + unfold print_results. rewrite Hd. apply last_snoc.
    + rewrite (print_results_table r first rest _ Hd). cbv zeta.
      change [?a; ?b] with ([a] ++ [b]). rewrite !app_assoc.
      apply last_snoc.
  - apply last_snoc.
Qed.

(** ** The loop on queries only *)

Section QueriesOnly.

Variable lower : pystr -> pystr.

(** On lines that are all queries, followed by a quit word, the session
    is the help banner followed by what [main] for queries logs. *)
Lemma main_of_queries e0 (lines : list (Env * pystr)) e text st :
  Forall (fun l => dispatch lower l.2 = Query (strip l.2)) lines ->
  dispatch lower text = Leave ->
  log_of (Interactive.main lower e0
            (map (fun l => (l.1, Line l.2)) lines ++ [(e, Line text)]) st)
  = EvPrint help_banner
      :: log_of (main e0 (map (fun l => (l.1, strip l.2)) lines) st).
Proof.
  intros Hq Hl.
  assert (forall st,
            Interactive.loop lower
              (map (fun l => (l.1, Line l.2)) lines ++ [(e, Line text)]) st
            = (Quit,
               state_of (for_each (map (fun l => (l.1, strip l.2)) lines)
                           (fun '(e, user_input) => ordinary_query e user_input)
                           st),
               log_of (for_each (map (fun l => (l.1, strip l.2)) lines)
                         (fun '(e, user_input) => ordinary_query e user_input)
                         st)
               ++ [EvPrint (py "👋  再见!")])) as Hloop.
  { induction lines as [|[e1 t1] lines IH]; intros st1.
    - cbn [map app]. rewrite loop_unfold, Hl. done.
    - apply Forall_cons in Hq as [Hq1 Hq].
      cbn [map app fst snd]. rewrite loop_unfold. cbn in Hq1. rewrite Hq1.
      rewrite then_run, (IH Hq). cbn [for_each].
      rewrite then_run, !result_of_run, !state_of_run, !log_of_run.
      by rewrite app_assoc. }
  unfold Interactive.main, main, show_help, get_db_connection,
    get_redis_client.
  unfold_monad.
  destruct (db_connect e0) as [[]|msg];
    cbn -[Interactive.loop for_each]; [|done].
  destruct (db_conn_close e0) as [[]|msg];
    cbn -[Interactive.loop for_each]; [|done].
  destruct (redis_ping e0) as [[]|msg];
    cbn -[Interactive.loop for_each]; rewrite Hloop;
    destruct (for_each _ _ st) as [[[] st2] l2]; cbn; done.
Qed.

End QueriesOnly.

(** ** Concrete runs of the shell *)

(** [/tables] on a database with two tables. *)
Example show_tables_run :
  let e := healthy [[(py "Tables_in_demo_db", VStr (py "ai_projects"))];
                    [(py "Tables_in_demo_db", VStr (py "users"))]] in
  printed (log_of (show_tables e (fresh_process ∅)))
  = [py "📋  数据库中的表:"; py "   • ai_projects"; py "   • users"].
Proof. vm_compute. reflexivity. Qed.

(** [/schema] on one column whose key is empty. *)
Example show_schema_run :
  let e := healthy [[(py "Field", VStr (py "id")); (py "Type", VStr (py "int"));
                     (py "Null", VStr (py "NO")); (py "Key", VStr (py "PRI"));
                     (py "Default", VNone); (py "Extra", VStr [])]] in
  printed (log_of (show_schema e (fresh_process ∅)))
  = [py "📐  ai_projects 表结构:"; py "   • id: int NO PRI"].
Proof. vm_compute. reflexivity. Qed.

(** A session: a blank line, a command in capitals, a statement typed
    after [/sql], a query, a quit word, and a line that is never read. *)
Example a_session :
  let e := healthy [] in
  let run :=
    Interactive.main ascii_lower e
      [(e, Line (py "   ")); (e, Line (py " /TABLES "));
       (e, Line (py "/sql")); (e, Line (py " SELECT 1 "));
       (e, Line a_prompt); (e, Line (py "Quit")); (e, Line (py "never read"))]
      (fresh_process ∅) in
  result_of run = Quit /\
  generated (log_of run) = [a_prompt] /\
  omap (fun ev => match ev with EvDbExecute stmt => Some stmt | _ => None end)
       (log_of run)
  = [py "SHOW TABLES"; py "SELECT 1"; a_statement] /\
  redis_db (state_of run) !! (py "cache:" ++ a_prompt)
  = Some (a_statement, 3600).
Proof. vm_compute. repeat split; reflexivity. Qed.

(** A start-up in which the test connection opens and its
    [conn.close()] raises: [main] ends there, whatever is typed. *)
Example main_close_raises inputs :
  let e0 :=
    {| redis_ping := Ok tt; redis_get_link := Ok tt; redis_setex_link := Ok tt;
       get_sql_from_llm := fun _ => Ok a_statement;
       db_connect := Ok tt; db_cursor := Ok tt; db_execute := fun _ => Ok tt;
       db_fetchall := fun _ => Ok two_rows; db_cursor_close := Ok tt;
       db_conn_close := Raise (py "MySQL Connection not available") |} in
  Interactive.main ascii_lower e0 inputs (fresh_process ∅)
  = (Uncaught, fresh_process ∅,
     [EvPrint help_banner; EvDbConnect; EvPrint (py "✅  MySQL 连接成功!");
      EvDbConnClose]).
Proof. reflexivity. Qed.
